(** * libjavabuildpack: the buildpack packager ([packager.go])

    A shallow embedding of [Packager] and of the library functions it calls,
    followed by the properties of the packaging flow.

    Go strings are byte sequences; they are modelled as [list ascii].  The
    functions of the Go standard library ([strings], [path/filepath], [fmt],
    [time], [os], [os/exec], [archive/tar]) are modelled for Unix, at the
    level of detail the packager observes.  A Go function that returns an
    [error] is a computation on the world of the run that may fail; what it
    has done before failing stays done.

    [defaultLogger] and [DefaultPackager] only build the [Packager] value
    from the environment; the embedding starts from a [Packager]. *)

From Stdlib Require Import Ascii String ZArith DecimalString.
From stdpp Require Import gmap strings list fin_maps.

Local Open Scope Z_scope.
Local Open Scope nat_scope.
Local Open Scope list_scope.

(** ** Go strings *)

Abbreviation gostring := (list ascii).

(** A string literal as a Go string. *)
Definition str (s : string) : gostring := list_ascii_of_string s.

Module strings.

(** [strings.HasPrefix(s, prefix)]. *)
Definition HasPrefix (s prefix : gostring) : bool :=
  bool_decide (prefix `prefix_of` s).

(** [strings.Index(s, substr)]: the offset of the first instance of
    [substr] in [s]; Go's [-1] is [None]. *)
Fixpoint Index (s substr : gostring) : option nat :=
  if HasPrefix s substr then Some 0
  else match s with
       | [] => None
       | _ :: s' => S <$> Index s' substr
       end.

(** [strings.Contains(s, substr)] is [Index(s, substr) >= 0]. *)
Definition Contains (s substr : gostring) : bool :=
  bool_decide (is_Some (Index s substr)).

(** [strings.Join(elems, sep)]. *)
Fixpoint Join (elems : list gostring) (sep : gostring) : gostring :=
  match elems with
  | [] => []
  | [e] => e
  | e :: rest => e ++ sep ++ Join rest sep
  end.

(** The loop of [genSplit]: cut [s] at the next instance of [sep], keep
    the part before it and go on after it; the last piece is what is left.
    [fuel] bounds the number of cuts. *)
Fixpoint Split_loop (sep : gostring) (fuel : nat) (s : gostring)
  : list gostring :=
  match fuel with
  | 0 => [s]
  | S fuel' =>
      match Index s sep with
      | None => [s]
      | Some m => take m s :: Split_loop sep fuel' (drop (m + length sep) s)
      end
  end.

(** [strings.Split(s, sep)] for a non-empty [sep] (the packager only
    splits on a literal).  Go sizes the result with [Count(s, sep)]; a
    string holds at most [len(s)] instances of a non-empty separator. *)
Definition Split (s sep : gostring) : list gostring :=
  Split_loop sep (length s) s.

(** The loop of [strings.Replace]: [n] times, copy up to the next
    instance of [old], write [new] and go on after the instance; then copy
    the rest.  Go first lowers [n] to the number of instances; here the
    loop stops when no instance is left. *)
Fixpoint Replace_loop (old new : gostring) (n : nat) (s : gostring)
  : gostring :=
  match n with
  | 0 => s
  | S n' =>
      match Index s old with
      | None => s
      | Some j =>
          take j s ++ new ++ Replace_loop old new n' (drop (j + length old) s)
      end
  end.

(** [strings.Replace(s, old, new, n)] for a non-empty [old]; a negative
    [n] replaces every instance. *)
Definition Replace (s old new : gostring) (n : Z) : gostring :=
  if bool_decide (old = new) || bool_decide (n = 0%Z) then s
  else Replace_loop old new (if bool_decide (n < 0)%Z then length s else Z.to_nat n) s.

End strings.

(** [substr] occurs in [s]. *)
Definition occurs (substr s : gostring) : Prop :=
  ∃ a b, s = a ++ substr ++ b.

(** A proper border of [w]: a non-empty proper prefix that is also a suffix.
    A word without one cannot overlap a copy of itself. *)
Definition borderless (w : gostring) : Prop :=
  ∀ k, 0 < k < length w → take k w ≠ drop (length w - k) w.

(** ** [path/filepath] on Unix

    [Clean] and [Rel] work on the elements between separators: a path is
    read as its list of elements, and the result is written back with one
    separator between elements. *)

Module filepath.

Definition Separator : gostring := str "/".

(** [filepath.IsAbs(path)] on Unix: the path starts with a separator. *)
Definition IsAbs (path : gostring) : bool :=
  strings.HasPrefix path Separator.

(** One element of the path read by [Clean].  [out] holds the elements
    written so far, the last one first; [rooted] tells whether the path
    starts with a separator.  An empty element and [.] are dropped; [..]
    removes the last element written if there is one that is not itself a
    kept [..], is kept when the path is not rooted, and is dropped at the
    root; any other element is written. *)
Definition clean_step (rooted : bool) (out : list gostring) (e : gostring)
  : list gostring :=
  if bool_decide (e = []) then out
  else if bool_decide (e = str ".") then out
  else if bool_decide (e = str "..") then
    match out with
    | top :: rest =>
        if bool_decide (top = str "..")
        then (if rooted then out else e :: out)
        else rest
    | [] => if rooted then out else [e]
    end
  else e :: out.

(** The elements [Clean] keeps, in order. *)
Definition clean_elems (rooted : bool) (path : gostring) : list gostring :=
  rev (foldl (clean_step rooted) [] (strings.Split path Separator)).

(** [filepath.Clean(path)]: the shortest path name equivalent to [path] by
    purely lexical processing.  The empty path and a path that cleans to
    nothing become [.]; a rooted path keeps its leading separator. *)
Definition Clean (path : gostring) : gostring :=
  if bool_decide (path = []) then str "."
  else
    let rooted := IsAbs path in
    let body := strings.Join (clean_elems rooted path) Separator in
    if rooted then Separator ++ body
    else if bool_decide (body = []) then str "." else body.

(** [filepath.Join(elem...)]: the elements from the first non-empty one on
    are joined with the separator and the result is cleaned; with no
    non-empty element the result is the empty string. *)
Fixpoint Join (elem : list gostring) : gostring :=
  match elem with
  | [] => []
  | e :: rest =>
      if bool_decide (e = []) then Join rest
      else Clean (strings.Join elem Separator)
  end.

(** The part of [path] up to and including its last separator. *)
Fixpoint upto_last_separator (path : gostring) : gostring :=
  match path with
  | [] => []
  | c :: rest =>
      if bool_decide (c = "/"%char) then c :: upto_last_separator rest
      else match upto_last_separator rest with
           | [] => []
           | d => c :: d
           end
  end.

(** [filepath.Dir(path)]: all but the last element of [path], cleaned. *)
Definition Dir (path : gostring) : gostring :=
  Clean (upto_last_separator path).

(** The elements [Rel] walks over in a cleaned path: the pieces between
    separators; the empty string has none, and the walk stops at the end
    of the string, so nothing follows the separator of the root path. *)
Definition rel_elems (p : gostring) : list gostring :=
  if bool_decide (p = []) then []
  else if bool_decide (p = Separator) then [[]]
  else strings.Split p Separator.

(** The walk of [Rel] over the elements of base and target: the common
    leading elements are skipped. *)
Fixpoint rel_skip (base targ : list gostring)
  : list gostring * list gostring :=
  match base, targ with
  | b :: base', t :: targ' =>
      if bool_decide (b = t) then rel_skip base' targ' else (base, targ)
  | _, _ => (base, targ)
  end.

(** [filepath.Rel(basepath, targpath)]: a relative path that is lexically
    equivalent to [targpath] when joined to [basepath]; [None] is Go's
    error (one path rooted and the other not, or a base that would have to
    be walked up past a [..]). *)
Definition Rel (basepath targpath : gostring) : option gostring :=
  let base := Clean basepath in
  let targ := Clean targpath in
  if bool_decide (targ = base) then Some (str ".")
  else
    let base := if bool_decide (base = str ".") then [] else base in
    if negb (eqb (IsAbs base) (IsAbs targ)) then None
    else
      let '(b, t) := rel_skip (rel_elems base) (rel_elems targ) in
      if bool_decide (b = [str ".."]) then None
      else
        match b with
        | [] => Some (strings.Join t Separator)
        | _ => Some (strings.Join (((λ _, str "..") <$> b) ++ t) Separator)
        end.

End filepath.

(** ** [time] *)

Module time.

(** A wall-clock time by its civil fields, as [time.Now()] returns it. *)
Record Time := {
  Year : nat; Month : nat; Day : nat;
  Hour : nat; Minute : nat; Second : nat
}.

(** [appendInt(b, x, width)]: [x] in decimal, padded with zeros on the left
    to [width] digits. *)
Definition appendInt (x width : nat) : gostring :=
  let d := str (NilEmpty.string_of_uint (Nat.to_uint x)) in
  replicate (width - length d) "0"%char ++ d.

(** [t.Format("20060102.150405")]: year, month and day, a dot, then hour
    (24-hour clock), minute and second. *)
Definition Format_20060102_150405 (t : Time) : gostring :=
  appendInt (Year t) 4 ++ appendInt (Month t) 2 ++ appendInt (Day t) 2
  ++ str "." ++
  appendInt (Hour t) 2 ++ appendInt (Minute t) 2 ++ appendInt (Second t) 2.

End time.

(** ** Errors *)

(** The [error] values of a packaging run. *)
Inductive Error :=
| ErrArguments                        (* the command line is too short *)
| ErrNotExist (path : gostring)       (* ENOENT *)
| ErrIsDir (path : gostring)          (* EISDIR *)
| ErrNotDir (path : gostring)         (* ENOTDIR *)
| ErrExist (path : gostring)          (* EEXIST *)
| ErrExit (code : Z)                  (* [*exec.ExitError] *)
| ErrSpawn (name : gostring)          (* the command could not be started *)
| ErrRel (basepath targpath : gostring)
| ErrCollaborator (msg : gostring).   (* an error of Buildpack or Cache *)

(** ** [os]: files *)

Module os.

(** A file or directory: its bytes, its [os.FileMode] (32 bits; the
    permission bits are the low nine, the directory bit is bit 31) and its
    modification time. *)
Record File := {
  Content : gostring;
  Mode : Z;
  ModTime : time.Time
}.

Definition ModeDir : Z := Z.shiftl 1 31.

(** [FileMode.IsDir()]. *)
Definition IsDir (f : File) : bool :=
  negb (Z.land (Mode f) ModeDir =? 0)%Z.

(** [FileInfo.Size()]: the length in bytes. *)
Definition Size (f : File) : Z := Z.of_nat (length (Content f)).

(** The flags of [os.OpenFile] (Linux values). *)
Definition O_RDWR : Z := 2.
Definition O_CREATE : Z := 64.
Definition O_TRUNC : Z := 512.

Definition has_flag (flag bit : Z) : bool := negb (Z.land flag bit =? 0)%Z.

(** The file system: path names to files.  Names are looked up as they
    are written; links and the working directory are not modelled. *)
Abbreviation FS := (gmap gostring File).

(** The directory in which [path] is created ([.] and [/] always
    exist). *)
Definition parent_ok (fs : FS) (path : gostring) : option Error :=
  let dir := filepath.Dir path in
  if bool_decide (dir = str ".") || bool_decide (dir = str "/") then None
  else match fs !! dir with
       | None => Some (ErrNotExist path)
       | Some d => if IsDir d then None else Some (ErrNotDir path)
       end.

(** [os.Mkdir(path, perm)]. *)
Definition Mkdir (now : time.Time) (path : gostring) (perm : Z) (fs : FS)
  : Error + FS :=
  match fs !! path with
  | Some _ => inl (ErrExist path)
  | None =>
      match parent_ok fs path with
      | Some e => inl e
      | None =>
          inr (<[path := {| Content := []; Mode := Z.lor ModeDir perm;
                            ModTime := now |}]> fs)
      end
  end.

(** Drop the leading elements that satisfy [f]. *)
Fixpoint drop_while {A} (f : A → bool) (l : list A) : list A :=
  match l with
  | [] => []
  | x :: l' => if f x then drop_while f l' else l
  end.

(** [path[0:j-1]] in [os.MkdirAll]: [path] without its trailing separators
    and its last element, and without the separator before that element;
    [None] when [j <= 1], that is when there is no parent to create. *)
Definition mkdir_parent (path : gostring) : option gostring :=
  let is_sep := λ c : ascii, bool_decide (c = "/"%char) in
  let r := drop_while is_sep (rev path) in
  let r := drop_while (λ c, negb (is_sep c)) r in
  match r with
  | [] | [_] => None
  | _ :: r' => Some (rev r')
  end.

(** [os.MkdirAll(path, perm)]: nothing to do for a directory, an error for
    a file; otherwise the parent is made first and then [path] itself.
    [fuel] bounds the recursion over ever shorter parents; the length of
    the path is enough. *)
Fixpoint MkdirAll_rec (fuel : nat) (now : time.Time) (path : gostring)
    (perm : Z) (fs : FS) : Error + FS :=
  match fs !! path with
  | Some d => if IsDir d then inr fs else inl (ErrNotDir path)
  | None =>
      match fuel with
      | 0 => inl (ErrNotExist path)
      | S fuel' =>
          let made :=
            match mkdir_parent path with
            | Some parent => MkdirAll_rec fuel' now parent perm fs
            | None => inr fs
            end in
          match made with
          | inl e => inl e
          | inr fs' => Mkdir now path perm fs'
          end
      end
  end.

Definition MkdirAll (now : time.Time) (path : gostring) (perm : Z) (fs : FS)
  : Error + FS :=
  MkdirAll_rec (S (length path)) now path perm fs.

(** [os.OpenFile(name, flag, perm)] for writing: an existing file is
    emptied under [O_TRUNC]; a missing one is created empty with mode
    [perm] under [O_CREATE] (the umask is not modelled). *)
Definition OpenFile (now : time.Time) (name : gostring) (flag perm : Z)
    (fs : FS) : Error + FS :=
  match fs !! name with
  | Some f =>
      if IsDir f then inl (ErrIsDir name)
      else if has_flag flag O_TRUNC then
        inr (<[name := {| Content := []; Mode := Mode f; ModTime := now |}]> fs)
      else inr fs
  | None =>
      if has_flag flag O_CREATE then
        match parent_ok fs name with
        | Some e => inl e
        | None =>
            inr (<[name := {| Content := []; Mode := perm; ModTime := now |}]> fs)
        end
      else inl (ErrNotExist name)
  end.

End os.

(** ** [os/exec] *)

Module exec.

(** Where a stream of the child process goes. *)
Inductive Stream := Discard | Stdout | Stderr.

(** [exec.Cmd]: the fields the packager sets. *)
Record Cmd := {
  Path : gostring;
  Args : list gostring;
  Dir : gostring;
  CmdStdout : Stream;
  CmdStderr : Stream
}.

(** [exec.Command(name, arg...)]: [Args] is the whole argument vector,
    with [name] first; no shell is involved and nothing is split. *)
Definition Command (name : gostring) (arg : list gostring) : Cmd :=
  {| Path := name; Args := name :: arg; Dir := [];
     CmdStdout := Discard; CmdStderr := Discard |}.

End exec.

(** ** [archive/tar] *)

Module tar.

(** [tar.Header]: the fields the packager sets. *)
Record Header := {
  Name : gostring;
  Size : Z;
  Mode : Z;
  ModTime : time.Time
}.

(** An entry of the stream: its header and the bytes written after it. *)
Record Entry := { Hdr : Header; Data : gostring }.

(** [tar.Writer]: the entries written so far, in order. *)
Abbreviation Writer := (list Entry).

(** [w.WriteHeader(hdr)] starts a new entry. *)
Definition WriteHeader (hdr : Header) (w : Writer) : Writer :=
  w ++ [{| Hdr := hdr; Data := [] |}].

(** [w.Write(b)] adds bytes to the entry started last. *)
Definition Write (b : gostring) (w : Writer) : Writer :=
  match rev w with
  | [] => w
  | e :: before => rev before ++ [{| Hdr := Hdr e; Data := Data e ++ b |}]
  end.

End tar.

(** ** The collaborators of the packager *)

(** Modelled from the spec: the [Dependency] type is declared outside
    [packager.go]; a dependency is an identifier and version pair plus what
    the cache needs to locate it. *)
Record Dependency := {
  DepID : gostring;
  DepVersion : gostring;
  DepURI : gostring
}.

(** The buildpack's identity, [Buildpack.Info]. *)
Record Info := { ID : gostring; Version : gostring }.

(** Modelled from the spec: the [Buildpack] collaborator, declared outside
    [packager.go].  It is immutable once loaded, so its methods are plain
    values: [IncludeFiles()] and [Dependencies()] return a list or an error,
    [PrePackage()] a command and whether one is declared. *)
Record Buildpack := {
  Root : gostring;
  BuildpackInfo : Info;
  IncludeFiles : Error + list gostring;
  Dependencies : Error + list Dependency;
  PrePackage : gostring * bool
}.

(** Modelled from the spec: the cache layer of one dependency.
    [Artifact()] materialises the dependency (it may download it, changing
    the file system) and returns the path of the artifact or an error;
    [Metadata(root)] is the path of the metadata file. *)
Record DownloadCacheLayer := {
  LayerRoot : gostring;
  Artifact : os.FS → (Error + gostring) * os.FS;
  Metadata : gostring → gostring
}.

(** Modelled from the spec: the [Cache] collaborator. *)
Record Cache := {
  DownloadLayer : Dependency → DownloadCacheLayer
}.

(** Modelled from the spec: the [Logger] collaborator formats what it is
    asked to name; the lines it prints are events of the run. *)
Record Logger := {
  PrettyVersionBuildpack : Buildpack → gostring;
  PrettyVersionDependency : Dependency → gostring
}.

(** [Packager] is a root element for packaging up a buildpack. *)
Record Packager := {
  PBuildpack : Buildpack;
  PCache : Cache;
  PLogger : Logger
}.

(** ** The world of a run *)

(** What a run does that can be observed from outside, in order. *)
Inductive Event :=
| EvFirstLine (msg : gostring)
| EvSubsequentLine (msg : gostring)
| EvRun (cmd : exec.Cmd)
| EvArtifact (dep : Dependency)
| EvMkdirAll (path : gostring) (perm : Z)
| EvOpenFile (name : gostring) (flag perm : Z)
| EvOpen (name : gostring)
| EvClose (name : gostring).

(** The process and its environment: the command line [os.Args], the
    time that [time.Now()] returns when the run reads it (it does so once,
    in [archivePath]; new files are given the same time), the file system,
    and the events so far. *)
Record World := {
  args : list gostring;
  clock : time.Time;
  fs : os.FS;
  trace : list Event
}.

Definition set_fs (f : os.FS) (w : World) : World :=
  {| args := args w; clock := clock w; fs := f; trace := trace w |}.

Definition emit (e : Event) (w : World) : World :=
  {| args := args w; clock := clock w; fs := fs w; trace := trace w ++ [e] |}.

(** ** Computations: a state that survives an error

    A Go function that returns [(T, error)] and acts on state [S] is a
    function from [S] to a result and the new state; what it did before
    failing stays done. *)

Definition M (S A : Type) : Type := S → (Error + A) * S.

Definition ret {S A} (a : A) : M S A := λ s, (inr a, s).

Definition fail {S A} (e : Error) : M S A := λ s, (inl e, s).

Definition bind {S A B} (c : M S A) (k : A → M S B) : M S B :=
  λ s, match c s with
       | (inl e, s') => (inl e, s')
       | (inr a, s') => k a s'
       end.

(** The monad operations behind stdpp's [x ← c; k] and [c;; k]. *)
#[global] Instance M_ret {S} : MRet (M S) := λ A, ret.
#[global] Instance M_bind {S} : MBind (M S) := λ A B k c, bind c k.

(** Act on the state without failing. *)
Definition modify {S} (f : S → S) : M S unit := λ s, (inr tt, f s).

(** Read the state. *)
Definition gets {S A} (f : S → A) : M S A := λ s, (inr (f s), s).

(** A returned [(T, error)] pair as a computation. *)
Definition of_result {S A} (r : Error + A) : M S A :=
  match r with inl e => fail e | inr a => ret a end.

(** A file-system operation as a step of the world. *)
Definition fs_step (op : os.FS → Error + os.FS) : M World unit :=
  λ w, match op (fs w) with
       | inl e => (inl e, w)
       | inr f => (inr tt, set_fs f w)
       end.

(** Run a computation of the world while a tar writer is open. *)
Definition lift {A} (c : M World A) : M (tar.Writer * World) A :=
  λ '(out, w), let '(r, w') := c w in (r, (out, w')).

(** Act on the open tar writer. *)
Definition on_writer (f : tar.Writer → tar.Writer)
  : M (tar.Writer * World) unit :=
  λ '(out, w), (inr tt, (f out, w)).

(** ** The packager *)

Section packager.

(** The operating system runs a command: it changes the file system as the
    command pleases and reports how the command ended ([None] for exit
    status zero). *)
Variable run_command : exec.Cmd → os.FS → option Error * os.FS.

(** The bytes that the tar writer and the gzip writer around it have put
    in the destination once both are closed. *)
Variable encode : tar.Writer → gostring.

(** Modelled from the spec: [osArgs(index)], defined outside
    [packager.go], returns the command-line argument at [index] and fails
    when the argument is missing. *)
Definition osArgs (index : nat) : M World gostring :=
  λ w, match args w !! index with
       | Some a => (inr a, w)
       | None => (inl ErrArguments, w)
       end.

(** [Logger.FirstLine] and [Logger.SubsequentLine]. *)
Definition FirstLine (msg : gostring) : M World unit :=
  modify (emit (EvFirstLine msg)).
Definition SubsequentLine (msg : gostring) : M World unit :=
  modify (emit (EvSubsequentLine msg)).

(** [cmd.Run()]: start the command and wait for it to end. *)
Definition Run (cmd : exec.Cmd) : M World unit :=
  λ w, let w := emit (EvRun cmd) w in
       match run_command cmd (fs w) with
       | (Some e, f) => (inl e, set_fs f w)
       | (None, f) => (inr tt, set_fs f w)
       end.

(** [os.MkdirAll(path, perm)] and [os.OpenFile(name, flag, perm)] as steps
    of the run. *)
Definition MkdirAll (path : gostring) (perm : Z) : M World unit :=
  λ w, fs_step (os.MkdirAll (clock w) path perm) (emit (EvMkdirAll path perm) w).
Definition OpenFile (name : gostring) (flag perm : Z) : M World unit :=
  λ w, fs_step (os.OpenFile (clock w) name flag perm)
         (emit (EvOpenFile name flag perm) w).

(** [os.Open(name)]: any existing file or directory can be opened. *)
Definition Open (name : gostring) : M World os.File :=
  λ w, let w := emit (EvOpen name) w in
       match fs w !! name with
       | Some f => (inr f, w)
       | None => (inl (ErrNotExist name), w)
       end.

(** [io.Copy(out, file)]: a directory cannot be read; the bytes of a file
    go to the entry started last. *)
Definition Copy (name : gostring) (file : os.File)
  : M (tar.Writer * World) unit :=
  if os.IsDir file then fail (ErrIsDir name)
  else on_writer (tar.Write (os.Content file)).

(** [layer.Artifact()]. *)
Definition layer_Artifact (dep : Dependency) (layer : DownloadCacheLayer)
  : M World gostring :=
  λ w, let w := emit (EvArtifact dep) w in
       let '(r, f) := Artifact layer (fs w) in (r, set_fs f w).

(** [filepath.Rel] with its error. *)
Definition Rel (basepath targpath : gostring) : M World gostring :=
  match filepath.Rel basepath targpath with
  | Some r => ret r
  | None => fail (ErrRel basepath targpath)
  end.

Definition prePackage (p : Packager) : M World unit :=
  let '(pp, ok) := PrePackage (PBuildpack p) in
  if negb ok then ret tt
  else
    let cmd := exec.Command pp [] in
    let cmd := {| exec.Path := exec.Path cmd; exec.Args := exec.Args cmd;
                  exec.Dir := Root (PBuildpack p);
                  exec.CmdStdout := exec.Stdout;
                  exec.CmdStderr := exec.Stderr |} in
    FirstLine (str "Pre-Package with "
                  ++ strings.Join (exec.Args cmd) (str " "));;
    Run cmd.

(** The loop of [cacheDependencies] over the dependencies left, with the
    files found so far. *)
Fixpoint cacheDependencies_loop (p : Packager) (deps : list Dependency)
    (files : list gostring) : M World (list gostring) :=
  match deps with
  | [] => ret files
  | dep :: deps' =>
      FirstLine (str "Caching " ++ PrettyVersionDependency (PLogger p) dep);;
      let layer := DownloadLayer (PCache p) dep in
      a ← layer_Artifact dep layer;
      artifact ← Rel (Root (PBuildpack p)) a;
      metadata ← Rel (Root (PBuildpack p)) (Metadata layer (LayerRoot layer));
      cacheDependencies_loop p deps' (files ++ [artifact; metadata])
  end.

Definition cacheDependencies (p : Packager) : M World (list gostring) :=
  deps ← of_result (Dependencies (PBuildpack p));
  cacheDependencies_loop p deps [].

Definition archivePath (p : Packager) : M World gostring :=
  dir ← osArgs 1;
  let info := BuildpackInfo (PBuildpack p) in
  let path := [dir] in
  let path := path ++ strings.Split (ID info) (str ".") in
  let path := path ++ [ID info; Version info] in
  let f := ID info ++ str "-" ++ Version info ++ str ".tgz" in
  now ← gets clock;
  let f := strings.Replace f (str "SNAPSHOT")
             (time.Format_20060102_150405 now ++ str "-1") 1 in
  let path := path ++ [f] in
  ret (filepath.Join path).

Definition addFile (p : Packager) (path : gostring)
  : M (tar.Writer * World) unit :=
  lift (SubsequentLine (str "Adding " ++ path));;
  let name := filepath.Join [Root (PBuildpack p); path] in
  file ← lift (Open name);
  let stat := file in
  let header := {| tar.Name := path;
                   tar.Size := os.Size stat;
                   tar.Mode := os.Mode stat;  (* [int64] of a 32-bit mode *)
                   tar.ModTime := os.ModTime stat |} in
  on_writer (tar.WriteHeader header);;
  Copy name file.

(** The loop of [createArchive] over the files. *)
Fixpoint addFiles (p : Packager) (files : list gostring)
  : M (tar.Writer * World) unit :=
  match files with
  | [] => ret tt
  | file :: files' => addFile p file;; addFiles p files'
  end.

(** The deferred calls of [createArchive], which run however the loop
    ends: closing the tar writer, the gzip writer and the file leaves the
    encoded stream in the destination. *)
Definition close_archive (archive : gostring) (out : tar.Writer) (w : World)
  : World :=
  let w := emit (EvClose archive) w in
  match fs w !! archive with
  | Some f =>
      set_fs (<[archive := {| os.Content := encode out; os.Mode := os.Mode f;
                              os.ModTime := clock w |}]> (fs w)) w
  | None => w
  end.

(** Run [c] with a new tar writer on the opened destination, then the
    deferred calls; the result of [c] is the result. *)
Definition with_archive {A} (archive : gostring)
    (c : M (tar.Writer * World) A) : M World A :=
  λ w, let '(r, (out, w')) := c ([], w) in
       (r, close_archive archive out w').

Definition createArchive (p : Packager) (files : list gostring)
  : M World unit :=
  archive ← archivePath p;
  FirstLine (str "Creating archive " ++ archive);;
  MkdirAll (filepath.Dir archive) 493%Z;;
  OpenFile archive (Z.lor (Z.lor os.O_RDWR os.O_CREATE) os.O_TRUNC) 420%Z;;
  with_archive archive (addFiles p files).

Definition Create (p : Packager) : M World unit :=
  FirstLine (str "Packaging "
                ++ PrettyVersionBuildpack (PLogger p) (PBuildpack p));;
  prePackage p;;
  includedFiles ← of_result (IncludeFiles (PBuildpack p));
  dependencyFiles ← cacheDependencies p;
  createArchive p (includedFiles ++ dependencyFiles).

End packager.

(** ** Vocabulary of the properties *)

(** The token that marks a version as not released. *)
Definition SNAPSHOT : gostring := str "SNAPSHOT".

(** A path element that [Clean] keeps as it is: not empty, not [.] or
    [..], and without a separator. *)
Definition plain_element (e : gostring) : bool :=
  negb (bool_decide (e = []))
  && negb (bool_decide (e = str "."))
  && negb (bool_decide (e = str ".."))
  && negb (bool_decide ("/"%char ∈ e)).

(** A directory name that [Clean] keeps as it is and that names neither
    the working directory nor the root. *)
Definition plain_directory (dir : gostring) : bool :=
  bool_decide (filepath.Clean dir = dir)
  && negb (bool_decide (dir = str "."))
  && negb (bool_decide (dir = str "/")).

(** The destination in the words of the specification:
    [<outputDir>/<id segments as nested directories>/<id>/<version>/<id>-<version>.tgz]. *)
Definition layout_path (outputDir id version : gostring) : gostring :=
  outputDir ++ str "/" ++ strings.Join (strings.Split id (str ".")) (str "/")
  ++ str "/" ++ id ++ str "/" ++ version
  ++ str "/" ++ id ++ str "-" ++ version ++ str ".tgz".

(** The timestamp that stands for the token. *)
Definition snapshot_stamp (now : time.Time) : gostring :=
  time.Format_20060102_150405 now ++ str "-1".

(** A name that is not a relative path inside the directory it is read
    from: it is rooted, or its cleaned form starts with [..]. *)
Definition escapes (name : gostring) : bool :=
  filepath.IsAbs name
  || bool_decide (head (filepath.clean_elems false name) = Some (str "..")).

(** The dependencies whose artifact was asked for, in order. *)
Definition artifacts_of (evs : list Event) : list Dependency :=
  omap (λ e, match e with EvArtifact dep => Some dep | _ => None end) evs.

(** The names of the entries of a tar stream, in order. *)
Definition entry_names (out : tar.Writer) : list gostring :=
  (λ e, tar.Name (tar.Hdr e)) <$> out.

(** ** A concrete buildpack and run, for the scenarios *)

Module scenario.

Definition now : time.Time :=
  {| time.Year := 2024; time.Month := 1; time.Day := 2;
     time.Hour := 3; time.Minute := 4; time.Second := 5 |}.

Definition later : time.Time :=
  {| time.Year := 2024; time.Month := 1; time.Day := 2;
     time.Hour := 3; time.Minute := 4; time.Second := 6 |}.

Definition file (content : string) : os.File :=
  {| os.Content := str content; os.Mode := 420; os.ModTime := now |}.

Definition jre : Dependency :=
  {| DepID := str "jre"; DepVersion := str "11.0.2";
     DepURI := str "https://example.com/jre.tgz" |}.

(** A cache below [root]: asking for the artifact downloads it and its
    metadata. *)
Definition layer (root : gostring) : DownloadCacheLayer :=
  {| LayerRoot := root ++ str "/jre";
     Artifact := λ fs,
       (inr (root ++ str "/jre/jre.tgz"),
        <[root ++ str "/jre/jre.tgz" := file "JRE"]>
          (<[root ++ str "/jre/dependency.toml" := file "sha"]> fs));
     Metadata := λ r, r ++ str "/dependency.toml" |}.

Definition buildpack (id version : string) (hook : bool) : Buildpack :=
  {| Root := str "/bp";
     BuildpackInfo := {| ID := str id; Version := str version |};
     IncludeFiles := inr [str "bin/build"; str "buildpack.toml"];
     Dependencies := inr [jre];
     PrePackage := (str "ci/package.sh --all", hook) |}.

Definition logger : Logger :=
  {| PrettyVersionBuildpack := λ b,
       ID (BuildpackInfo b) ++ str " " ++ Version (BuildpackInfo b);
     PrettyVersionDependency := λ d, DepID d ++ str " " ++ DepVersion d |}.

(** A packager whose cache is at [cache]. *)
Definition packager (id version : string) (hook : bool) (cache : string)
  : Packager :=
  {| PBuildpack := buildpack id version hook;
     PCache := {| DownloadLayer := λ _, layer (str cache) |};
     PLogger := logger |}.

(** The process started as [package <outputDir>...] at time [t]. *)
Definition world (arguments : list string) (t : time.Time) : World :=
  {| args := str <$> (("package"%string) :: arguments);
     clock := t;
     fs := <[str "/bp/bin/build" := file "#!/bin/sh"]>
             (<[str "/bp/buildpack.toml" := file "[buildpack]"]> ∅);
     trace := [] |}.

(** The destination of [com.example.buildpack] [1.2.3] below [/out], and
    a world in which an older archive is there already. *)
Definition destination : gostring :=
  str "/out/com/example/buildpack/com.example.buildpack/1.2.3/com.example.buildpack-1.2.3.tgz".


(** Commands that end with exit status zero, or with status one, and
    leave the files alone. *)
Definition succeeds (cmd : exec.Cmd) (fs : os.FS) : option Error * os.FS :=
  (None, fs).
Definition exits_1 (cmd : exec.Cmd) (fs : os.FS) : option Error * os.FS :=
  (Some (ErrExit 1), fs).

(** A stand-in for the tar and gzip encoding: the names and the bytes of
    the entries. *)
Definition encode (out : tar.Writer) : gostring :=
  concat ((λ e, tar.Name (tar.Hdr e) ++ str ":" ++ tar.Data e ++ str ";")
            <$> out).

End scenario.

(** ** Vocabulary of the packaging flow *)

(** The command that [prePackage] runs for the declared string [pp]. *)
Definition hook_command (p : Packager) (pp : gostring) : exec.Cmd :=
  {| exec.Path := pp; exec.Args := [pp]; exec.Dir := Root (PBuildpack p);
     exec.CmdStdout := exec.Stdout; exec.CmdStderr := exec.Stderr |}.

(** The line [prePackage] logs before it runs the command. *)
Definition hook_line (pp : gostring) : Event :=
  EvFirstLine (str "Pre-Package with " ++ pp).

(** The first line of a run. *)
Definition packaging_line (p : Packager) : Event :=
  EvFirstLine (str "Packaging "
               ++ PrettyVersionBuildpack (PLogger p) (PBuildpack p)).

(** [artifact] and [metadata] are the two paths of [dep]: what [Rel] makes
    of the artifact that the cache layer of [dep] returned from some state
    of the file system, and of the layer's metadata file. *)
Definition dependency_files (p : Packager) (dep : Dependency)
    (files : gostring * gostring) : Prop :=
  let layer := DownloadLayer (PCache p) dep in
  (∃ fs0 fs1 a,
     Artifact layer fs0 = (inr a, fs1)
     ∧ filepath.Rel (Root (PBuildpack p)) a = Some files.1)
  ∧ filepath.Rel (Root (PBuildpack p)) (Metadata layer (LayerRoot layer))
    = Some files.2.

(** A list of pairs as the flat list of their components. *)
Definition flatten (pairs : list (gostring * gostring)) : list gostring :=
  pairs ≫= λ ab, [ab.1; ab.2].

(** [e] is the entry of the file that [path] names below the root of the
    buildpack in [fs]: the name is [path]; size, mode and modification time
    are the file's; the bytes are the file's. *)
Definition entry_of (p : Packager) (fs : os.FS) (path : gostring)
    (e : tar.Entry) : Prop :=
  ∃ file,
    fs !! filepath.Join [Root (PBuildpack p); path] = Some file
    ∧ os.IsDir file = false
    ∧ tar.Hdr e = {| tar.Name := path;
                     tar.Size := Z.of_nat (length (os.Content file));
                     tar.Mode := os.Mode file;
                     tar.ModTime := os.ModTime file |}
    ∧ tar.Data e = os.Content file.

(** The flags with which [createArchive] opens the destination. *)
Definition archive_flags : Z :=
  Z.lor (Z.lor os.O_RDWR os.O_CREATE) os.O_TRUNC.

(** The absolute [path] lies below the absolute [root]: cleaned, it is the
    cleaned root, a separator, and a rest. *)
Definition below (root path rest : gostring) : Prop :=
  filepath.IsAbs root = true
  ∧ filepath.IsAbs path = true
  ∧ filepath.Clean root ≠ str "/"
  ∧ rest ≠ []
  ∧ filepath.Clean path = filepath.Clean root ++ str "/" ++ rest.

(** [w'] is [w] some steps later: the command line and the clock are the
    same, and the events [evs] have followed those of [w]. *)
Definition extends (w w' : World) (evs : list Event) : Prop :=
  args w' = args w ∧ clock w' = clock w ∧ trace w' = trace w ++ evs.

(** * Properties *)

(** ** Facts about [strings] *)

#[local] Arguments strings.Index : simpl never.
#[local] Arguments strings.HasPrefix : simpl never.

Section strings_facts.

Implicit Types s sub old new a b pre post : gostring.

Lemma HasPrefix_true s sub :
  strings.HasPrefix s sub = true ↔ ∃ k, s = sub ++ k.
Proof. unfold strings.HasPrefix. rewrite bool_decide_eq_true. reflexivity. Qed.

Lemma HasPrefix_false s sub :
  strings.HasPrefix s sub = false ↔ ¬ ∃ k, s = sub ++ k.
Proof. unfold strings.HasPrefix. rewrite bool_decide_eq_false. reflexivity. Qed.

Lemma Index_unfold s sub :
  strings.Index s sub =
    if strings.HasPrefix s sub then Some 0
    else match s with
         | [] => None
         | _ :: s' => S <$> strings.Index s' sub
         end.
Proof. destruct s; reflexivity. Qed.

(** An index found is the offset of an instance. *)
Lemma Index_Some s sub j :
  strings.Index s sub = Some j →
  s = take j s ++ sub ++ drop (j + length sub) s ∧ j + length sub ≤ length s.
Proof.
  revert j. induction s as [|c s IH]; intros j; rewrite Index_unfold.
  - destruct (strings.HasPrefix [] sub) eqn:E; [|discriminate].
    intros [= <-]. apply HasPrefix_true in E as [k E].
    symmetry in E. apply app_eq_nil in E as [-> ->]. simpl. split; [done|lia].
  - destruct (strings.HasPrefix (c :: s) sub) eqn:E.
    + intros [= <-]. apply HasPrefix_true in E as [k E].
      rewrite E. cbn [take plus app]. rewrite drop_app_length.
      split; [done|]. rewrite length_app. lia.
    + destruct (strings.Index s sub) as [i|] eqn:Ei; [|discriminate].
      intros [= <-]. destruct (IH i eq_refl) as [Hs Hl]. simpl.
      split; [by rewrite <- Hs | lia].
Qed.

(** No index is found exactly when there is no instance. *)
Lemma Index_None s sub : strings.Index s sub = None ↔ ¬ occurs sub s.
Proof.
  induction s as [|c s IH]; rewrite Index_unfold.
  - destruct (strings.HasPrefix [] sub) eqn:E.
    + split; [discriminate|]. intros H. exfalso. apply H.
      apply HasPrefix_true in E as [k E]. by exists [], k.
    + split; [|done]. intros _ (a & b & H). apply HasPrefix_false in E.
      apply E. symmetry in H. apply app_eq_nil in H as [-> H].
      exists b. by rewrite H.
  - destruct (strings.HasPrefix (c :: s) sub) eqn:E.
    + split; [discriminate|]. intros H. exfalso. apply H.
      apply HasPrefix_true in E as [k E]. by exists [], k.
    + apply HasPrefix_false in E. rewrite fmap_None, IH. split.
      * intros H (a & b & Hab). destruct a as [|x a].
        -- apply E. by exists b.
        -- apply H. injection Hab as _ ->. by exists a, b.
      * intros H (a & b & Hab). apply H. exists (c :: a), b. by rewrite Hab.
Qed.

Lemma Contains_false s sub :
  strings.Contains s sub = false ↔ ¬ occurs sub s.
Proof.
  unfold strings.Contains. rewrite bool_decide_eq_false, <- Index_None.
  rewrite eq_None_not_Some. reflexivity.
Qed.

Lemma Contains_true s sub :
  strings.Contains s sub = true ↔ occurs sub s.
Proof.
  destruct (strings.Contains s sub) eqn:E.
  - split; [intros _|done]. unfold strings.Contains in E.
    apply bool_decide_eq_true in E as [j E]. apply Index_Some in E as [E _].
    eexists _, _. exact E.
  - apply Contains_false in E. split; [discriminate|done].
Qed.

Lemma occurs_app_l sub a b : occurs sub a → occurs sub (a ++ b).
Proof. intros (x & y & ->). exists x, (y ++ b). by rewrite <- !app_assoc. Qed.

Lemma occurs_app_r sub a b : occurs sub b → occurs sub (a ++ b).
Proof. intros (x & y & ->). exists (a ++ x), y. by rewrite <- !app_assoc. Qed.

(** An instance of a word that does not hold the byte [c] lies on one side
    of any [c]. *)
Lemma occurs_app_cons sub a c b :
  c ∉ sub → occurs sub (a ++ c :: b) → occurs sub a ∨ occurs sub b.
Proof.
  intros Hc (x & y & H).
  apply app_eq_inv in H as [(k & -> & Hk)|(k & -> & Hk)].
  - apply app_eq_inv in Hk as [(k' & -> & Hk)|(k' & -> & Hk)].
    + destruct k' as [|d k'].
      * left. exists x, []. by rewrite !app_nil_r.
      * exfalso. apply Hc. injection Hk as <- _. apply elem_of_app.
        right. left.
    + left. by exists x, k'.
  - destruct k as [|d k].
    + destruct sub as [|d sub]; [by left; exists [], a|].
      exfalso. apply Hc. injection Hk as -> _. left.
    + injection Hk as _ ->. right. by exists k, y.
Qed.

(** A word without a border that does not occur in [pre] is first found
    right after [pre]. *)
Lemma no_early_prefix sub pre post :
  pre ≠ [] → ¬ occurs sub pre → borderless sub →
  strings.HasPrefix (pre ++ sub ++ post) sub = false.
Proof.
  intros Hne Hpre Hb. apply HasPrefix_false. intros [k H].
  apply app_eq_inv in H as [(k' & -> & _)|(k' & Hsub & Hk)].
  - apply Hpre. by exists [], k'.
  - destruct k' as [|c k'].
    + apply Hpre. exists [], []. by rewrite app_nil_r in *.
    + apply (Hb (length (c :: k'))).
      * rewrite Hsub, length_app. destruct pre; [done|]. simpl. lia.
      * assert (take (length (c :: k')) sub = c :: k') as ->.
        { apply (f_equal (take (length (c :: k')))) in Hk.
          rewrite take_app_length in Hk.
          rewrite take_app_le in Hk; [done|].
          rewrite Hsub, length_app. lia. }
        rewrite Hsub at 1. rewrite length_app.
        replace (length pre + length (c :: k') - length (c :: k'))
          with (length pre) by lia.
        rewrite Hsub, drop_app_length. done.
Qed.

Lemma Index_first sub pre post :
  ¬ occurs sub pre → borderless sub →
  strings.Index (pre ++ sub ++ post) sub = Some (length pre).
Proof.
  intros Hpre Hb. induction pre as [|c pre IH].
  - rewrite Index_unfold.
    assert (strings.HasPrefix ([] ++ sub ++ post) sub = true) as ->; [|done].
    apply HasPrefix_true. by exists post.
  - rewrite Index_unfold, no_early_prefix by done.
    cbn [app]. rewrite IH; [done|].
    intros (a & b & ->). apply Hpre. by exists (c :: a), b.
Qed.

(** A single byte has no border. *)
Lemma borderless_byte (c : ascii) : borderless [c].
Proof. intros k. simpl. lia. Qed.

Lemma occurs_byte (c : ascii) s : occurs [c] s ↔ c ∈ s.
Proof.
  split.
  - intros (a & b & ->). apply elem_of_app. right. left.
  - intros H. apply list_elem_of_split in H as (a & b & ->). by exists a, b.
Qed.

(** A byte is not in a given string: by evaluation. *)
Lemma not_elem_of_decide (c : ascii) s : bool_decide (c ∈ s) = false → c ∉ s.
Proof. by intros H%bool_decide_eq_false. Qed.

(** *** [Replace] *)

Lemma Replace_loop_absent old new n s :
  ¬ occurs old s → strings.Replace_loop old new n s = s.
Proof.
  intros H. apply Index_None in H. destruct n; simpl; [done|]. by rewrite H.
Qed.

(** Without an instance of [old] nothing is replaced. *)
Lemma Replace_absent s old new n :
  ¬ occurs old s → strings.Replace s old new n = s.
Proof.
  intros H. unfold strings.Replace.
  destruct (_ || _); [done|]. by apply Replace_loop_absent.
Qed.

(** With [n = 1] the first instance, and only it, is replaced. *)
Lemma Replace_first pre post old new :
  ¬ occurs old pre → borderless old →
  strings.Replace (pre ++ old ++ post) old new 1 = pre ++ new ++ post.
Proof.
  intros Hpre Hb. unfold strings.Replace.
  destruct (bool_decide (old = new)) eqn:E.
  - apply bool_decide_eq_true in E as ->. done.
  - cbn [orb bool_decide]. simpl. rewrite Index_first by done.
    rewrite take_app_length.
    rewrite drop_app_add, drop_app_length. done.
Qed.

(** *** [Split] on a single byte *)

Lemma Index_byte_first (c : ascii) a b :
  c ∉ a → strings.Index (a ++ c :: b) [c] = Some (length a).
Proof.
  intros H. apply (Index_first [c] a b); [|apply borderless_byte].
  by rewrite occurs_byte.
Qed.

Lemma Index_byte_absent (c : ascii) s :
  c ∉ s → strings.Index s [c] = None.
Proof. intros H. apply Index_None. by rewrite occurs_byte. Qed.

(** Enough fuel is as good as any. *)
Lemma Split_loop_fuel sep n m s :
  sep ≠ [] → length s ≤ n → length s ≤ m →
  strings.Split_loop sep n s = strings.Split_loop sep m s.
Proof.
  intros Hsep. revert m s. induction n as [|n IH]; intros m s Hn Hm.
  - destruct s; [|simpl in Hn; lia].
    destruct m; simpl; [done|].
    destruct (strings.Index [] sep) as [j|] eqn:E; [|done].
    apply Index_Some in E as [_ E]. destruct sep; [done|simpl in E; lia].
  - destruct m as [|m].
    + destruct s; [|simpl in Hm; lia]. simpl.
      destruct (strings.Index [] sep) as [j|] eqn:E; [|done].
      apply Index_Some in E as [_ E]. destruct sep; [done|simpl in E; lia].
    + simpl. destruct (strings.Index s sep) as [j|] eqn:E; [|done].
      apply Index_Some in E as [_ E]. f_equal.
      assert (0 < length sep) by (destruct sep; [done|simpl; lia]).
      apply IH; rewrite length_drop; lia.
Qed.

Lemma Split_absent (c : ascii) s :
  c ∉ s → strings.Split s [c] = [s].
Proof.
  intros H. unfold strings.Split. destruct (length s); simpl; [done|].
  by rewrite Index_byte_absent.
Qed.

Lemma Split_cons (c : ascii) a b :
  c ∉ a → strings.Split (a ++ c :: b) [c] = a :: strings.Split b [c].
Proof.
  intros H. unfold strings.Split. rewrite length_app. simpl.
  replace (length a + S (length b)) with (S (length a + length b)) by lia.
  simpl. rewrite Index_byte_first by done.
  rewrite take_app_length. f_equal.
  replace (a ++ c :: b) with ((a ++ [c]) ++ b) by by rewrite <- app_assoc.
  rewrite drop_app_length' by (rewrite length_app; simpl; lia).
  apply Split_loop_fuel; [done|lia|lia].
Qed.

(** Strings by their first separator: induction on the pieces. *)
Lemma split_ind (c : ascii) (P : gostring → Prop) :
  (∀ s, c ∉ s → P s) →
  (∀ a b, c ∉ a → P b → P (a ++ c :: b)) →
  ∀ s, P s.
Proof.
  intros Hbase Hstep s.
  remember (length s) as n eqn:Hn. revert s Hn.
  induction n as [n IH] using lt_wf_ind. intros s ->.
  destruct (decide (c ∈ s)) as [Hin|Hout]; [|by apply Hbase].
  apply list_elem_of_split_l in Hin as (a & b & -> & Ha).
  apply Hstep; [done|]. apply (IH (length b)); [|done].
  rewrite length_app. simpl. lia.
Qed.

Lemma Split_app (c : ascii) a b :
  strings.Split (a ++ c :: b) [c] = strings.Split a [c] ++ strings.Split b [c].
Proof.
  revert a. apply (split_ind c).
  - intros a Ha. rewrite Split_cons by done. by rewrite (Split_absent c a).
  - intros a1 a2 Ha1 IH. rewrite <- app_assoc. cbn [app].
    rewrite (Split_cons c a1) by done. rewrite IH.
    by rewrite (Split_cons c a1 a2).
Qed.

Lemma Split_nonempty s sep : strings.Split s sep ≠ [].
Proof.
  unfold strings.Split. destruct (length s); simpl; [done|].
  by destruct (strings.Index s sep).
Qed.

(** Joining the pieces gives the string back. *)
Lemma Join_Split (c : ascii) s :
  strings.Join (strings.Split s [c]) [c] = s.
Proof.
  revert s. apply (split_ind c).
  - intros s Hs. by rewrite Split_absent.
  - intros a b Ha IH. rewrite Split_cons by done.
    pose proof (Split_nonempty b [c]) as Hne.
    cbn [strings.Join]. destruct (strings.Split b [c]); [done|].
    by rewrite IH.
Qed.

(** No piece holds the separator, and every byte of a piece is a byte of
    the string. *)
Lemma Split_pieces (c : ascii) s :
  Forall (λ e, (c ∉ e) ∧ (∀ x, x ∈ e → x ∈ s)) (strings.Split s [c]).
Proof.
  revert s. apply (split_ind c).
  - intros s Hs. rewrite Split_absent by done. by repeat constructor.
  - intros a b Ha IH. rewrite Split_cons by done. constructor.
    + split; [done|]. intros x Hx. apply elem_of_app. by left.
    + eapply Forall_impl; [exact IH|]. intros e [He1 He2]. split; [done|].
      intros x Hx. apply elem_of_app. right. right. by apply He2.
Qed.

(** Splitting a join of pieces without the separator gives the pieces. *)
Lemma Split_Join (c : ascii) (es : list gostring) :
  es ≠ [] → Forall (λ e, c ∉ e) es →
  strings.Split (strings.Join es [c]) [c] = es.
Proof.
  intros Hne H. induction H as [|e es He Hes IH]; [done|].
  destruct es as [|e' es].
  - simpl. by apply Split_absent.
  - cbn [strings.Join]. cbn [app]. rewrite Split_cons by done.
    f_equal. by apply IH.
Qed.

Lemma Join_app (a b : list gostring) sep :
  a ≠ [] → b ≠ [] →
  strings.Join (a ++ b) sep = strings.Join a sep ++ sep ++ strings.Join b sep.
Proof.
  intros Ha Hb. induction a as [|e a IH]; [done|].
  destruct a as [|e' a].
  - simpl. by destruct b.
  - change ((e :: e' :: a) ++ b) with (e :: (e' :: a) ++ b).
    cbn [strings.Join]. cbn [app]. cbn [strings.Join] in IH. cbn [app] in IH.
    rewrite IH by done. by rewrite <- !app_assoc.
Qed.

End strings_facts.

(** ** Facts about [filepath] *)

Section filepath_facts.

Implicit Types dir e : gostring.
Implicit Types es out : list gostring.

Lemma plain_element_spec e :
  plain_element e = true ↔
  e ≠ [] ∧ e ≠ str "." ∧ e ≠ str ".." ∧ "/"%char ∉ e.
Proof.
  unfold plain_element. rewrite !andb_true_iff, !negb_true_iff.
  rewrite !bool_decide_eq_false. tauto.
Qed.

Lemma clean_step_plain rooted out e :
  plain_element e = true → filepath.clean_step rooted out e = e :: out.
Proof.
  intros (H1 & H2 & H3 & _)%plain_element_spec. unfold filepath.clean_step.
  by rewrite !bool_decide_eq_false_2.
Qed.

(** Plain elements are written one after the other. *)
Lemma foldl_clean_step_plain rooted out es :
  Forall (λ e, plain_element e = true) es →
  foldl (filepath.clean_step rooted) out es = rev es ++ out.
Proof.
  intros H. revert out. induction H as [|e es He Hes IH]; intros out; [done|].
  cbn [foldl]. rewrite clean_step_plain, IH by done.
  simpl. by rewrite <- app_assoc.
Qed.

Lemma IsAbs_cons (c : ascii) s :
  filepath.IsAbs (c :: s) = bool_decide (c = "/"%char).
Proof.
  unfold filepath.IsAbs, strings.HasPrefix, filepath.Separator.
  apply bool_decide_ext. split.
  - intros [k [= ->]]. done.
  - intros ->. by exists s.
Qed.

Lemma IsAbs_app a b : a ≠ [] → filepath.IsAbs (a ++ b) = filepath.IsAbs a.
Proof. destruct a; [done|]. intros _. cbn [app]. by rewrite !IsAbs_cons. Qed.

Lemma Clean_nonempty s : filepath.Clean s ≠ [].
Proof.
  unfold filepath.Clean. case_bool_decide; [done|].
  destruct (filepath.IsAbs s); [done|]. by case_bool_decide.
Qed.

Lemma plain_elements_no_separator es :
  Forall (λ e, plain_element e = true) es → Forall (λ e, "/"%char ∉ e) es.
Proof.
  intros H. eapply Forall_impl; [exact H|].
  by intros e (_ & _ & _ & He)%plain_element_spec.
Qed.

(** A clean directory followed by plain elements is clean. *)
Lemma Clean_extend dir es :
  plain_directory dir = true → es ≠ [] →
  Forall (λ e, plain_element e = true) es →
  filepath.Clean (dir ++ str "/" ++ strings.Join es (str "/"))
  = dir ++ str "/" ++ strings.Join es (str "/").
Proof.
  unfold plain_directory. rewrite !andb_true_iff, !negb_true_iff.
  rewrite bool_decide_eq_true, !bool_decide_eq_false.
  intros [[Hclean Hdot] Hroot] Hne Hes.
  assert (dir ≠ []) as Hdir.
  { intros ->. by apply (Clean_nonempty []). }
  set (J := strings.Join es (str "/")).
  assert (filepath.clean_elems (filepath.IsAbs dir) (dir ++ str "/" ++ J)
          = filepath.clean_elems (filepath.IsAbs dir) dir ++ es) as Helems.
  { unfold filepath.clean_elems, filepath.Separator. change (str "/") with ["/"%char].
    cbn [app]. rewrite Split_app, foldl_app.
    unfold J. change (str "/") with ["/"%char].
    rewrite Split_Join by (done || by apply plain_elements_no_separator).
    rewrite foldl_clean_step_plain by done.
    by rewrite rev_app_distr, rev_involutive. }
  unfold filepath.Clean in *.
  rewrite bool_decide_eq_false_2 by (by destruct dir).
  rewrite bool_decide_eq_false_2 in Hclean by done.
  rewrite IsAbs_app by done. rewrite Helems.
  set (ce := filepath.clean_elems (filepath.IsAbs dir) dir) in *.
  assert (ce ≠ []) as Hce.
  { intros E. rewrite E in Hclean. simpl in Hclean.
    destruct (filepath.IsAbs dir); [by apply Hroot|by apply Hdot]. }
  rewrite Join_app by done. clearbody ce. clear Helems.
  destruct (filepath.IsAbs dir).
  - rewrite <- Hclean. unfold filepath.Separator, J.
    by rewrite <- !app_assoc.
  - case_bool_decide as Hb; [congruence|].
    rewrite bool_decide_eq_false_2.
    + by rewrite Hclean.
    + intros E. apply app_eq_nil in E as [E _]. done.
Qed.

(** [Join] of a clean directory and plain elements writes them out with
    separators. *)
Lemma Join_plain dir es :
  plain_directory dir = true → es ≠ [] →
  Forall (λ e, plain_element e = true) es →
  filepath.Join (dir :: es) = dir ++ str "/" ++ strings.Join es (str "/").
Proof.
  intros Hdir Hne Hes. cbn [filepath.Join].
  rewrite bool_decide_eq_false_2.
  - cbn [strings.Join]. destruct es; [done|]. by apply Clean_extend.
  - intros ->. by vm_compute in Hdir.
Qed.

End filepath_facts.

(** ** Facts about [os] *)

Section os_facts.

Lemma drop_while_length {A} (f : A → bool) (l : list A) :
  length (os.drop_while f l) ≤ length l.
Proof.
  induction l as [|x l IH]; [done|]. cbn. destruct (f x); cbn; lia.
Qed.

(** The parent that [MkdirAll] makes first is shorter than the path. *)
Lemma mkdir_parent_shorter path parent :
  os.mkdir_parent path = Some parent → length parent < length path.
Proof.
  unfold os.mkdir_parent. cbv zeta.
  match goal with
  | |- context [os.drop_while ?g (os.drop_while ?f (rev path))] =>
      pose proof (drop_while_length g (os.drop_while f (rev path))) as H1;
      pose proof (drop_while_length f (rev path)) as H2;
      destruct (os.drop_while g (os.drop_while f (rev path)))
        as [|c [|d r]]; [done|done|]
  end.
  rewrite length_rev in H2. intros [= <-].
  change (rev (d :: r)) with (rev r ++ [d]).
  rewrite length_app, length_rev. cbn in *. lia.
Qed.

(** The recursion of [MkdirAll] ends within the fuel it is given: more
    fuel gives the same result. *)
Lemma MkdirAll_rec_fuel (n m : nat) (t : time.Time) (path : gostring)
    (perm : Z) (fs : os.FS) :
  length path < n → length path < m →
  os.MkdirAll_rec n t path perm fs = os.MkdirAll_rec m t path perm fs.
Proof.
  revert m path. induction n as [|n IH]; intros m path Hn Hm; [lia|].
  destruct m as [|m]; [lia|]. cbn [os.MkdirAll_rec].
  destruct (fs !! path); [done|].
  destruct (os.mkdir_parent path) as [parent|] eqn:E; [|done].
  apply mkdir_parent_shorter in E. rewrite (IH m parent); [done|lia|lia].
Qed.

End os_facts.

(** ** The library model on the examples of the Go documentation and tests *)

Section library_examples.

Example Split_examples :
  strings.Split (str "a,b,c") (str ",") = [str "a"; str "b"; str "c"]
  ∧ strings.Split (str "a man a plan a canal panama") (str "a ")
    = [str ""; str "man "; str "plan "; str "canal panama"]
  ∧ strings.Split (str "") (str ".") = [str ""]
  ∧ strings.Split (str "a..b.") (str ".") = [str "a"; str ""; str "b"; str ""].
Proof. repeat split. Qed.

Example Replace_examples :
  strings.Replace (str "oink oink oink") (str "k") (str "ky") 2
  = str "oinky oinky oink"
  ∧ strings.Replace (str "oink oink oink") (str "oink") (str "moo") (-1)
    = str "moo moo moo"
  ∧ strings.Replace (str "banana") (str "a") (str "a") 1 = str "banana"
  ∧ strings.Replace (str "banana") (str "x") (str "y") 1 = str "banana".
Proof. repeat split. Qed.

Example Clean_examples :
  Forall (λ t : string * string, filepath.Clean (str t.1) = str t.2)
    [("abc", "abc"); ("abc/def", "abc/def"); (".", "."); ("..", "..");
     ("../..", "../.."); ("../../abc", "../../abc"); ("/abc", "/abc");
     ("/", "/"); ("", "."); ("abc/", "abc"); ("abc/def/", "abc/def");
     ("./", "."); ("../", ".."); ("../../", "../.."); ("/abc/", "/abc");
     ("abc//def//ghi", "abc/def/ghi"); ("//abc", "/abc"); ("///abc", "/abc");
     ("//abc//", "/abc"); ("abc//", "abc"); ("abc/./def", "abc/def");
     ("/./abc/def", "/abc/def"); ("abc/.", "abc");
     ("abc/def/ghi/../jkl", "abc/def/jkl");
     ("abc/def/../ghi/../jkl", "abc/jkl"); ("abc/def/..", "abc");
     ("abc/def/../..", "."); ("/abc/def/../..", "/");
     ("abc/def/../../..", ".."); ("/abc/def/../../..", "/");
     ("abc/def/../../../ghi/jkl/../../../mno", "../../mno");
     ("/../abc", "/abc"); ("abc/./../def", "def"); ("abc//./../def", "def");
     ("abc/../../././../def", "../../def")]%string.
Proof. repeat constructor. Qed.

Example Join_examples :
  filepath.Join [str "a"; str "b"; str "c"] = str "a/b/c"
  ∧ filepath.Join [str "a"; str "b/c"] = str "a/b/c"
  ∧ filepath.Join [str "a/b"; str "../../../xyz"] = str "../xyz"
  ∧ filepath.Join [str ""; str ""] = str ""
  ∧ filepath.Join [str "a"; str ""] = str "a"
  ∧ filepath.Join [str ""; str "a"] = str "a"
  ∧ filepath.Join [str "/"; str "a"] = str "/a".
Proof. repeat split. Qed.

Example Dir_examples :
  filepath.Dir (str "/foo/bar/baz.js") = str "/foo/bar"
  ∧ filepath.Dir (str "/foo/bar/baz/") = str "/foo/bar/baz"
  ∧ filepath.Dir (str "dev.txt") = str "."
  ∧ filepath.Dir (str "../todo.txt") = str ".."
  ∧ filepath.Dir (str "/") = str "/"
  ∧ filepath.Dir (str "") = str ".".
Proof. repeat split. Qed.

Example Rel_examples :
  Forall (λ t : string * string * option string,
            filepath.Rel (str t.1.1) (str t.1.2) = str <$> t.2)
    [("a/b", "a/b", Some "."); ("a/b/.", "a/b", Some ".");
     ("ab/cd", "ab/cde", Some "../cde"); ("a/b", "a/b/c/d", Some "c/d");
     ("a/b", "a/b/../c", Some "../c"); ("a/b/c", "a/c/d", Some "../../c/d");
     ("a/b", "c/d", Some "../../c/d"); ("a/b/c/d", "a/b", Some "../..");
     ("../../a/b", "../../a/b/c/d", Some "c/d"); ("/a/b", "/a/b", Some ".");
     ("/ab/cd", "/ab/cde", Some "../cde"); ("/a/b", "/a/b/c/d", Some "c/d");
     ("/a/b/../c", "/a/b", Some "../b");
     ("/a/b/c", "/a/c/d", Some "../../c/d"); ("/a/b/c/d", "/a/b/", Some "../..");
     ("/../../a/b", "/../../a/b/c/d", Some "c/d"); (".", "a/b", Some "a/b");
     (".", "..", Some ".."); ("/a", "/b/c", Some "../b/c");
     ("..", ".", None); ("..", "a", None); ("../..", "..", None);
     ("a", "/a", None); ("/a", "a", None)]%string.
Proof. repeat constructor. Qed.

Example Format_example :
  time.Format_20060102_150405 scenario.now = str "20240102.030405".
Proof. reflexivity. Qed.

End library_examples.

(** ** The Path Builder: [archivePath] *)

Section archivePath_facts.

Variable p : Packager.

Let id := ID (BuildpackInfo (PBuildpack p)).
Let version := Version (BuildpackInfo (PBuildpack p)).

(** [archivePath] written out: the argument is read, nothing is changed. *)
Lemma archivePath_unfold w :
  archivePath p w =
    match args w !! 1 with
    | Some dir =>
        (inr (filepath.Join
                (dir :: strings.Split id (str ".")
                 ++ [id; version;
                     strings.Replace (id ++ str "-" ++ version ++ str ".tgz")
                       SNAPSHOT (snapshot_stamp (clock w)) 1])), w)
    | None => (inl ErrArguments, w)
    end.
Proof.
  unfold archivePath, osArgs, mbind, M_bind, bind.
  destruct (args w !! 1); [|done].
  unfold gets, ret. cbn [app]. by rewrite <- app_assoc.
Qed.

Lemma SNAPSHOT_borderless : borderless SNAPSHOT.
Proof.
  intros k [H1 H2]. change (length SNAPSHOT) with 8 in *.
  do 8 (destruct k as [|k]; [lia || discriminate|]). lia.
Qed.

(** The token is in the file name only if it is in the id or in the
    version. *)
Lemma SNAPSHOT_in_name a b :
  occurs SNAPSHOT (a ++ str "-" ++ b ++ str ".tgz") →
  occurs SNAPSHOT a ∨ occurs SNAPSHOT b.
Proof.
  intros H. apply occurs_app_cons in H as [H|H];
    [by left| |by apply not_elem_of_decide].
  apply occurs_app_cons in H as [H|H]; [by right| |by apply not_elem_of_decide].
  exfalso. revert H. by apply Contains_false.
Qed.

Lemma name_without_SNAPSHOT now :
  strings.Contains id SNAPSHOT = false →
  strings.Contains version SNAPSHOT = false →
  strings.Replace (id ++ str "-" ++ version ++ str ".tgz")
    SNAPSHOT (snapshot_stamp now) 1
  = id ++ str "-" ++ version ++ str ".tgz".
Proof.
  intros Hid%Contains_false Hv%Contains_false. apply Replace_absent.
  intros [H|H]%SNAPSHOT_in_name; tauto.
Qed.

(** The first token of the version is the first token of the file name
    when the id holds none; it alone is replaced. *)
Lemma name_with_SNAPSHOT now pre post :
  strings.Contains id SNAPSHOT = false →
  strings.Contains pre SNAPSHOT = false →
  version = pre ++ SNAPSHOT ++ post →
  strings.Replace (id ++ str "-" ++ version ++ str ".tgz")
    SNAPSHOT (snapshot_stamp now) 1
  = id ++ str "-" ++ pre ++ snapshot_stamp now ++ post ++ str ".tgz".
Proof.
  intros Hid%Contains_false Hpre%Contains_false ->.
  replace (id ++ str "-" ++ (pre ++ SNAPSHOT ++ post) ++ str ".tgz")
    with ((id ++ str "-" ++ pre) ++ SNAPSHOT ++ (post ++ str ".tgz"))
    by (by rewrite <- !app_assoc).
  rewrite Replace_first; [by rewrite <- !app_assoc| |apply SNAPSHOT_borderless].
  intros [H|H]%occurs_app_cons; [tauto|tauto|by apply not_elem_of_decide].
Qed.

End archivePath_facts.

Section layout_facts.

Lemma elem_of_Join (x : ascii) (es : list gostring) sep :
  x ∈ strings.Join es sep → x ∈ sep ∨ Exists (λ e, x ∈ e) es.
Proof.
  induction es as [|e es IH]; [by intros ?%elem_of_nil|].
  destruct es as [|e' es].
  - intros H. right. by left.
  - cbn [strings.Join]. rewrite !elem_of_app.
    intros [H|[H|H]]; [right; by left|by left|].
    destruct (IH H) as [?|?]; [by left|right; by right].
Qed.

Lemma forallb_plain (es : list gostring) :
  forallb plain_element es = true → Forall (λ e, plain_element e = true) es.
Proof.
  rewrite forallb_forall, Forall_forall. intros H e He.
  by apply H, list_elem_of_In.
Qed.

(** An id whose segments are plain is a plain element itself. *)
Lemma plain_id id :
  forallb plain_element (strings.Split id (str ".")) = true →
  plain_element id = true.
Proof.
  intros H. apply plain_element_spec. repeat split.
  - intros ->. by vm_compute in H.
  - intros ->. by vm_compute in H.
  - intros ->. by vm_compute in H.
  - intros Hin. rewrite <- (Join_Split "."%char id) in Hin.
    apply elem_of_Join in Hin as [Hin|Hin].
    + by apply (not_elem_of_decide "/"%char (str ".")).
    + apply forallb_plain in H. rewrite Forall_forall in H.
      apply Exists_exists in Hin as (e & He & Hin).
      apply H, plain_element_spec in He. tauto.
Qed.

(** A file name [<a>-<b><c>] made of bytes that are not separators is a
    plain element. *)
Lemma plain_name a b c :
  "/"%char ∉ a → "/"%char ∉ b → "/"%char ∉ c →
  plain_element (a ++ str "-" ++ b ++ c) = true.
Proof.
  intros Ha Hb Hc. apply plain_element_spec.
  assert ("-"%char ∈ a ++ str "-" ++ b ++ c) as Hdash.
  { apply elem_of_app. right. left. }
  repeat split.
  - intros E. rewrite E in Hdash. by apply elem_of_nil in Hdash.
  - intros E. rewrite E in Hdash.
    by apply (not_elem_of_decide "-"%char (str ".")).
  - intros E. rewrite E in Hdash.
    by apply (not_elem_of_decide "-"%char (str "..")).
  - rewrite !elem_of_app. intros [?|[H|[?|?]]]; try done.
    by apply (not_elem_of_decide "/"%char (str "-")).
Qed.

End layout_facts.

(** ** C1: the layout of the destination path *)

(** C1, as amended.  When the output directory is a clean directory name,
    the segments of the id and the version are plain path elements, and
    neither the id nor the version holds the token SNAPSHOT, the Path
    Builder returns
    [<outputDir>/<id segments as nested directories>/<id>/<version>/<id>-<version>.tgz]. *)
Theorem archivePath_layout (p : Packager) (w : World) (dir : gostring) :
  args w !! 1 = Some dir →
  plain_directory dir = true →
  forallb plain_element
    (strings.Split (ID (BuildpackInfo (PBuildpack p))) (str ".")) = true →
  plain_element (Version (BuildpackInfo (PBuildpack p))) = true →
  strings.Contains (ID (BuildpackInfo (PBuildpack p))) SNAPSHOT = false →
  strings.Contains (Version (BuildpackInfo (PBuildpack p))) SNAPSHOT = false →
  archivePath p w =
    (inr (layout_path dir (ID (BuildpackInfo (PBuildpack p)))
            (Version (BuildpackInfo (PBuildpack p)))), w).
Proof.
  intros Hargs Hdir Hsegs Hversion Hid Hv.
  rewrite archivePath_unfold, Hargs.
  rewrite name_without_SNAPSHOT by done.
  set (id := ID _) in *. set (version := Version _) in *.
  pose proof (plain_id id Hsegs) as Hplain.
  apply plain_element_spec in Hplain as (_ & _ & _ & Hid_sep).
  pose proof Hversion as (_ & _ & _ & Hv_sep)%plain_element_spec.
  rewrite Join_plain; [|done|by destruct (strings.Split id (str "."))|].
  - unfold layout_path. do 3 f_equal.
    rewrite Join_app by (done || apply Split_nonempty).
    reflexivity.
  - apply Forall_app. split; [by apply forallb_plain|].
    repeat constructor; [by apply plain_id|done|].
    apply plain_name; [done|done|]. by apply not_elem_of_decide.
Qed.

(** The scenario of C1: id [com.example.buildpack], version [1.2.3],
    output directory [/out]. *)
Lemma archivePath_layout_witness :
  archivePath (scenario.packager "com.example.buildpack" "1.2.3" true "/bp/cache")
    (scenario.world ["/out"%string] scenario.now)
  = (inr (layout_path (str "/out") (str "com.example.buildpack") (str "1.2.3")),
     scenario.world ["/out"%string] scenario.now)
  ∧ layout_path (str "/out") (str "com.example.buildpack") (str "1.2.3")
    = str "/out/com/example/buildpack/com.example.buildpack/1.2.3/com.example.buildpack-1.2.3.tgz".
Proof.
  split; [|reflexivity].
  apply (archivePath_layout
           (scenario.packager "com.example.buildpack" "1.2.3" true "/bp/cache")
           (scenario.world ["/out"%string] scenario.now) (str "/out"));
    reflexivity.
Defined.

(** C1 as stated fails: with the token in the version the file name is
    stamped, and an output directory written with a trailing separator or
    an id with an empty segment is cleaned; no such result is the path of
    the layout. *)
Lemma archivePath_layout_counterexample :
  (archivePath (scenario.packager "com.example.buildpack" "1.2.3.SNAPSHOT" true "/bp/cache")
     (scenario.world ["/out"%string] scenario.now)).1
  = inr (str "/out/com/example/buildpack/com.example.buildpack/1.2.3.SNAPSHOT/com.example.buildpack-1.2.3.20240102.030405-1.tgz")
  ∧ layout_path (str "/out") (str "com.example.buildpack") (str "1.2.3.SNAPSHOT")
    = str "/out/com/example/buildpack/com.example.buildpack/1.2.3.SNAPSHOT/com.example.buildpack-1.2.3.SNAPSHOT.tgz"
  ∧ (archivePath (scenario.packager "com.example.buildpack" "1.2.3" true "/bp/cache")
       (scenario.world ["/out/"%string] scenario.now)).1
    ≠ inr (layout_path (str "/out/") (str "com.example.buildpack") (str "1.2.3"))
  ∧ (archivePath (scenario.packager "com..buildpack" "1.2.3" true "/bp/cache")
       (scenario.world ["/out"%string] scenario.now)).1
    ≠ inr (layout_path (str "/out") (str "com..buildpack") (str "1.2.3")).
Proof. repeat split; (reflexivity || by vm_compute). Qed.

(** ** C2: the token SNAPSHOT *)

(** C2, as amended.  When the id does not hold the token and the first
    token of the version is the one between [pre] and [post], the Path
    Builder replaces that token, and nothing else, in the file name by
    [<timestamp>-1]; the directory named after the version keeps the
    version as it is. *)
Theorem archivePath_snapshot (p : Packager) (w : World)
    (dir pre post : gostring) :
  args w !! 1 = Some dir →
  strings.Contains (ID (BuildpackInfo (PBuildpack p))) SNAPSHOT = false →
  strings.Contains pre SNAPSHOT = false →
  Version (BuildpackInfo (PBuildpack p)) = pre ++ SNAPSHOT ++ post →
  archivePath p w =
    (inr (filepath.Join
            (dir :: strings.Split (ID (BuildpackInfo (PBuildpack p))) (str ".")
             ++ [ID (BuildpackInfo (PBuildpack p));
                 pre ++ SNAPSHOT ++ post;
                 ID (BuildpackInfo (PBuildpack p)) ++ str "-"
                 ++ pre ++ time.Format_20060102_150405 (clock w) ++ str "-1"
                 ++ post ++ str ".tgz"])), w).
Proof.
  intros Hargs Hid Hpre Hv.
  rewrite archivePath_unfold, Hargs.
  rewrite (name_with_SNAPSHOT p (clock w) pre post) by done.
  rewrite Hv. unfold snapshot_stamp. by rewrite <- !app_assoc.
Qed.

(** The scenario of C2: version [1.2.3.SNAPSHOT] at 2024-01-02T03:04:05. *)
Lemma archivePath_snapshot_witness :
  archivePath (scenario.packager "com.example.buildpack" "1.2.3.SNAPSHOT" true "/bp/cache")
    (scenario.world ["/out"%string] scenario.now)
  = (inr (str "/out/com/example/buildpack/com.example.buildpack/1.2.3.SNAPSHOT/com.example.buildpack-1.2.3.20240102.030405-1.tgz"),
     scenario.world ["/out"%string] scenario.now).
Proof.
  apply (archivePath_snapshot
           (scenario.packager "com.example.buildpack" "1.2.3.SNAPSHOT" true "/bp/cache")
           (scenario.world ["/out"%string] scenario.now)
           (str "/out") (str "1.2.3.") []);
    reflexivity.
Defined.

(** C2 as stated fails.  In the scenario the directory named after the
    version is still [1.2.3.SNAPSHOT]: the path is not the layout of the
    stamped version.  And when the id holds the token, the token of the id
    is replaced and the one of the version is not. *)
Lemma archivePath_snapshot_counterexample :
  (archivePath (scenario.packager "com.example.buildpack" "1.2.3.SNAPSHOT" true "/bp/cache")
     (scenario.world ["/out"%string] scenario.now)).1
  ≠ inr (layout_path (str "/out") (str "com.example.buildpack")
           (str "1.2.3.20240102.030405-1"))
  ∧ (archivePath (scenario.packager "com.SNAPSHOT.buildpack" "1.2.3.SNAPSHOT" true "/bp/cache")
       (scenario.world ["/out"%string] scenario.now)).1
    = inr (str "/out/com/SNAPSHOT/buildpack/com.SNAPSHOT.buildpack/1.2.3.SNAPSHOT/com.20240102.030405-1.buildpack-1.2.3.SNAPSHOT.tgz").
Proof. split; [by vm_compute|reflexivity]. Qed.

(** ** C4: released versions do not depend on the time *)

(** C4, as amended.  When neither the id nor the version holds the token,
    two evaluations for the same id, version and output directory argument
    give the same result, whatever the time and the rest of the world. *)
Theorem archivePath_deterministic (p1 p2 : Packager) (w1 w2 : World) :
  BuildpackInfo (PBuildpack p1) = BuildpackInfo (PBuildpack p2) →
  args w1 !! 1 = args w2 !! 1 →
  strings.Contains (ID (BuildpackInfo (PBuildpack p1))) SNAPSHOT = false →
  strings.Contains (Version (BuildpackInfo (PBuildpack p1))) SNAPSHOT = false →
  (archivePath p1 w1).1 = (archivePath p2 w2).1.
Proof.
  intros Hinfo Hargs Hid Hv. rewrite !archivePath_unfold.
  rewrite <- Hinfo, <- Hargs. destruct (args w1 !! 1); [|done].
  by rewrite !name_without_SNAPSHOT.
Qed.

(** Two packagers of [com.example.buildpack] [1.2.3], run a second apart
    with the same output directory. *)
Lemma archivePath_deterministic_witness :
  (archivePath (scenario.packager "com.example.buildpack" "1.2.3" true "/bp/cache")
     (scenario.world ["/out"%string] scenario.now)).1
  = (archivePath (scenario.packager "com.example.buildpack" "1.2.3" false "/cache")
       (scenario.world ["/out"%string; "--verbose"%string] scenario.later)).1.
Proof.
  apply (archivePath_deterministic
           (scenario.packager "com.example.buildpack" "1.2.3" true "/bp/cache")
           (scenario.packager "com.example.buildpack" "1.2.3" false "/cache")
           (scenario.world ["/out"%string] scenario.now)
           (scenario.world ["/out"%string; "--verbose"%string] scenario.later));
    reflexivity.
Defined.

(** C4 as stated fails: the version holds no token, the id does, and the
    path changes with the time. *)
Lemma archivePath_deterministic_counterexample :
  strings.Contains (str "1.2.3") SNAPSHOT = false
  ∧ (archivePath (scenario.packager "com.SNAPSHOT.buildpack" "1.2.3" true "/bp/cache")
       (scenario.world ["/out"%string] scenario.now)).1
    ≠ (archivePath (scenario.packager "com.SNAPSHOT.buildpack" "1.2.3" true "/bp/cache")
         (scenario.world ["/out"%string] scenario.later)).1.
Proof. split; [reflexivity|by vm_compute]. Qed.

(** ** Computations *)

#[local] Arguments filepath.Join : simpl never.
#[local] Arguments filepath.Dir : simpl never.
#[local] Arguments str : simpl never.

Section computations.

Context {S A B : Type}.

Lemma bind_unfold (c : M S A) (k : A → M S B) s :
  (c ≫= k) s =
    match c s with
    | (inl e, s') => (inl e, s')
    | (inr a, s') => k a s'
    end.
Proof. reflexivity. Qed.

(** A sequence succeeds when both parts do. *)
Lemma bind_inr (c : M S A) (k : A → M S B) s b s' :
  (c ≫= k) s = (inr b, s') ↔ ∃ a s1, c s = (inr a, s1) ∧ k a s1 = (inr b, s').
Proof.
  rewrite bind_unfold. destruct (c s) as [[e|a] s1].
  - split; [discriminate|]. by intros (? & ? & [=] & _).
  - split; [by exists a, s1|]. by intros (? & ? & [= -> ->] & ?).
Qed.

End computations.

Lemma extends_refl w : extends w w [].
Proof. unfold extends. by rewrite app_nil_r. Qed.

Lemma extends_trans w1 w2 w3 evs1 evs2 :
  extends w1 w2 evs1 → extends w2 w3 evs2 → extends w1 w3 (evs1 ++ evs2).
Proof.
  intros (? & ? & H1) (? & ? & H2). unfold extends.
  rewrite H2, H1, <- app_assoc. repeat split; congruence.
Qed.

Lemma extends_emit w e : extends w (emit e w) [e].
Proof. done. Qed.

Lemma extends_set_fs w w' f evs : extends w w' evs → extends w (set_fs f w') evs.
Proof. done. Qed.

(** The result of [archivePath] depends on the command line and on the
    clock only. *)
Lemma archivePath_extends p w w' evs :
  extends w w' evs → (archivePath p w').1 = (archivePath p w).1.
Proof.
  intros (Hargs & Hclock & _). rewrite !archivePath_unfold, Hargs, Hclock.
  by destruct (args w !! 1).
Qed.

Lemma archivePath_state p w : (archivePath p w).2 = w.
Proof. rewrite archivePath_unfold. by destruct (args w !! 1). Qed.

(** ** The pre-package stage *)

Section prePackage_facts.

Variable run_command : exec.Cmd → os.FS → option Error * os.FS.

Lemma prePackage_absent p w pp :
  PrePackage (PBuildpack p) = (pp, false) →
  prePackage run_command p w = (inr (), w).
Proof. intros H. unfold prePackage. by rewrite H. Qed.

Lemma prePackage_declared p w pp :
  PrePackage (PBuildpack p) = (pp, true) →
  prePackage run_command p w =
    let w1 := emit (EvRun (hook_command p pp)) (emit (hook_line pp) w) in
    let r := run_command (hook_command p pp) (fs w) in
    (match r.1 with Some e => inl e | None => inr () end, set_fs r.2 w1).
Proof.
  intros H. unfold prePackage. rewrite H. cbn [negb].
  rewrite bind_unfold. unfold FirstLine, modify, Run.
  cbn [exec.Command exec.Path exec.Args strings.Join].
  fold (hook_command p pp). fold (hook_line pp). cbn [fs emit].
  by destruct (run_command (hook_command p pp) (fs w)) as [[e|] f].
Qed.

(** The stage changes the files and the events only; it always logs its
    events after those of the world it starts from. *)
Lemma prePackage_extends p w r w' :
  prePackage run_command p w = (r, w') → ∃ evs, extends w w' evs.
Proof.
  destruct (PrePackage (PBuildpack p)) as [pp [|]] eqn:H.
  - rewrite (prePackage_declared _ _ pp H). intros [= _ <-].
    exists [hook_line pp; EvRun (hook_command p pp)].
    unfold extends. cbn. by rewrite <- app_assoc.
  - rewrite (prePackage_absent _ _ pp H). intros [= _ <-].
    exists []. apply extends_refl.
Qed.

End prePackage_facts.

(** ** C7: the pre-package stage *)

(** C7.  Without a declared command the stage succeeds and does nothing:
    the world is unchanged and no event is logged.  With a declared command
    [pp] the stage logs its line, runs the command once, with the root of
    the buildpack as working directory and the standard streams of the
    process, waits for it, and returns the error of the command, if any. *)
Theorem prePackage_stage
    (run_command : exec.Cmd → os.FS → option Error * os.FS)
    (p : Packager) (w : World) (pp : gostring) :
  (PrePackage (PBuildpack p) = (pp, false) →
   prePackage run_command p w = (inr (), w))
  ∧ (PrePackage (PBuildpack p) = (pp, true) →
     ∃ cmd,
       exec.Path cmd = pp
       ∧ exec.Dir cmd = Root (PBuildpack p)
       ∧ exec.CmdStdout cmd = exec.Stdout
       ∧ exec.CmdStderr cmd = exec.Stderr
       ∧ prePackage run_command p w =
           (match (run_command cmd (fs w)).1 with
            | Some e => inl e
            | None => inr ()
            end,
            {| args := args w; clock := clock w;
               fs := (run_command cmd (fs w)).2;
               trace := trace w ++ [hook_line pp; EvRun cmd] |})).
Proof.
  split; intros H.
  - by apply prePackage_absent with pp.
  - exists (hook_command p pp). repeat split.
    rewrite (prePackage_declared _ _ _ pp H). cbn.
    unfold set_fs, emit. cbn. by rewrite <- app_assoc.
Qed.

(** A buildpack without a command, and one whose command exits with
    status one. *)
Lemma prePackage_stage_witness :
  prePackage scenario.exits_1
    (scenario.packager "com.example.buildpack" "1.2.3" false "/bp/cache")
    (scenario.world ["/out"%string] scenario.now)
  = (inr (), scenario.world ["/out"%string] scenario.now)
  ∧ ∃ cmd,
      exec.Path cmd = str "ci/package.sh --all"
      ∧ exec.Dir cmd = str "/bp"
      ∧ exec.CmdStdout cmd = exec.Stdout
      ∧ exec.CmdStderr cmd = exec.Stderr
      ∧ prePackage scenario.exits_1
          (scenario.packager "com.example.buildpack" "1.2.3" true "/bp/cache")
          (scenario.world ["/out"%string] scenario.now)
        = (match (scenario.exits_1 cmd
                    (fs (scenario.world ["/out"%string] scenario.now))).1 with
           | Some e => inl e
           | None => inr ()
           end,
           {| args := args (scenario.world ["/out"%string] scenario.now);
              clock := clock (scenario.world ["/out"%string] scenario.now);
              fs := (scenario.exits_1 cmd
                       (fs (scenario.world ["/out"%string] scenario.now))).2;
              trace := trace (scenario.world ["/out"%string] scenario.now)
                       ++ [hook_line (str "ci/package.sh --all"); EvRun cmd] |}).
Proof.
  split.
  - exact (proj1 (prePackage_stage scenario.exits_1
             (scenario.packager "com.example.buildpack" "1.2.3" false "/bp/cache")
             (scenario.world ["/out"%string] scenario.now)
             (str "ci/package.sh --all")) eq_refl).
  - exact (proj2 (prePackage_stage scenario.exits_1
             (scenario.packager "com.example.buildpack" "1.2.3" true "/bp/cache")
             (scenario.world ["/out"%string] scenario.now)
             (str "ci/package.sh --all")) eq_refl).
Defined.

(** ** C10: the command string is the one element of the argument vector *)

(** C10.  Whatever the declared string [pp] holds, spaces and shell
    syntax included, the one command the stage runs has [pp] as the
    name of its executable and [[pp]] as its whole argument vector: nothing
    is split off it and nothing is added. *)
Theorem prePackage_argv
    (run_command : exec.Cmd → os.FS → option Error * os.FS)
    (p : Packager) (w : World) (pp : gostring) :
  PrePackage (PBuildpack p) = (pp, true) →
  ∃ cmd,
    trace (prePackage run_command p w).2
    = trace w ++ [hook_line pp; EvRun cmd]
    ∧ exec.Path cmd = pp
    ∧ exec.Args cmd = [pp]
    ∧ length (exec.Args cmd) = 1.
Proof.
  intros H. exists (hook_command p pp).
  rewrite (prePackage_declared _ _ _ pp H). cbn.
  by rewrite <- app_assoc.
Qed.

(** The command string [ci/package.sh --all], with a space in it. *)
Lemma prePackage_argv_witness :
  ∃ cmd,
    trace (prePackage scenario.succeeds
             (scenario.packager "com.example.buildpack" "1.2.3" true "/bp/cache")
             (scenario.world ["/out"%string] scenario.now)).2
    = trace (scenario.world ["/out"%string] scenario.now)
      ++ [hook_line (str "ci/package.sh --all"); EvRun cmd]
    ∧ exec.Path cmd = str "ci/package.sh --all"
    ∧ exec.Args cmd = [str "ci/package.sh --all"]
    ∧ length (exec.Args cmd) = 1.
Proof.
  exact (prePackage_argv scenario.succeeds
           (scenario.packager "com.example.buildpack" "1.2.3" true "/bp/cache")
           (scenario.world ["/out"%string] scenario.now)
           (str "ci/package.sh --all") eq_refl).
Defined.

(** ** The dependency stage *)

Section cacheDependencies_facts.

Variable p : Packager.

Lemma artifacts_of_app evs1 evs2 :
  artifacts_of (evs1 ++ evs2) = artifacts_of evs1 ++ artifacts_of evs2.
Proof. apply omap_app. Qed.

Lemma Rel_inr base targ w r w' :
  Rel base targ w = (inr r, w') → filepath.Rel base targ = Some r ∧ w' = w.
Proof.
  unfold Rel. destruct (filepath.Rel base targ); [|discriminate].
  by intros [= -> ->].
Qed.

(** A successful loop has asked each dependency for its artifact, in
    order, and has added its two paths to the files. *)
Lemma cacheDependencies_loop_inr deps files w r w' :
  cacheDependencies_loop p deps files w = (inr r, w') →
  ∃ pairs evs,
    r = files ++ flatten pairs
    ∧ Forall2 (dependency_files p) deps pairs
    ∧ extends w w' evs
    ∧ artifacts_of evs = deps.
Proof.
  revert files w. induction deps as [|dep deps IH]; intros files w.
  - intros [= <- <-]. exists [], []. rewrite app_nil_r.
    repeat split; [constructor|by rewrite app_nil_r].
  - cbn [cacheDependencies_loop]. intros H.
    apply bind_inr in H as (u & w1 & Hlog & H1).
    injection Hlog as _ <-.
    apply bind_inr in H1 as (a & w2 & Ha & H2).
    apply bind_inr in H2 as (artifact & w3 & Hart & H3).
    apply Rel_inr in Hart as [Hart ->].
    apply bind_inr in H3 as (metadata & w4 & Hmeta & H4).
    apply Rel_inr in Hmeta as [Hmeta ->].
    apply IH in H4 as (pairs & evs & -> & Hpairs & Hext & Hevs).
    unfold layer_Artifact in Ha.
    destruct (Artifact _ _) as [ra f] eqn:HA. injection Ha as -> <-.
    exists ((artifact, metadata) :: pairs),
      (EvFirstLine (str "Caching " ++ PrettyVersionDependency (PLogger p) dep)
       :: EvArtifact dep :: evs).
    split; [by rewrite <- app_assoc|]. split; [|split].
    + constructor; [|done]. split; [|done]. by eexists _, _, _.
    + destruct Hext as (Hargs & Hclock & Htrace). unfold extends.
      rewrite Hargs, Hclock, Htrace. cbn. rewrite <- !app_assoc. done.
    + change (artifacts_of (?e :: EvArtifact dep :: evs))
        with (dep :: artifacts_of evs). by rewrite Hevs.
Qed.

Lemma cacheDependencies_inr w r w' :
  cacheDependencies p w = (inr r, w') →
  ∃ deps pairs evs,
    Dependencies (PBuildpack p) = inr deps
    ∧ r = flatten pairs
    ∧ Forall2 (dependency_files p) deps pairs
    ∧ extends w w' evs
    ∧ artifacts_of evs = deps.
Proof.
  unfold cacheDependencies. intros H.
  apply bind_inr in H as (deps & w1 & Hdeps & H).
  destruct (Dependencies (PBuildpack p)) as [e|deps'] eqn:E; [done|].
  injection Hdeps as -> ->.
  apply cacheDependencies_loop_inr in H as (pairs & evs & -> & ? & ? & ?).
  by exists deps, pairs, evs.
Qed.

End cacheDependencies_facts.

(** ** The archive writer *)

Section archive_facts.

Variable encode : tar.Writer → gostring.
Variable p : Packager.

Lemma Write_last out hdr b :
  tar.Write b (tar.WriteHeader hdr out)
  = out ++ [{| tar.Hdr := hdr; tar.Data := b |}].
Proof.
  unfold tar.Write, tar.WriteHeader.
  rewrite rev_app_distr. cbn. by rewrite rev_involutive.
Qed.

(** A file added: one entry more, made from the file as it is in the file
    system; the files are not touched. *)
Lemma addFile_inr path out w out' w' :
  addFile p path (out, w) = (inr (), (out', w')) →
  ∃ e evs,
    entry_of p (fs w) path e
    ∧ out' = out ++ [e]
    ∧ fs w' = fs w
    ∧ extends w w' evs.
Proof.
  unfold addFile. intros H.
  apply bind_inr in H as (u & [o1 w1] & Hlog & H1).
  injection Hlog as _ <- <-.
  apply bind_inr in H1 as (file & [o2 w2] & Hopen & H2).
  unfold lift, Open in Hopen. cbn [fs emit] in Hopen.
  destruct (fs w !! _) as [file'|] eqn:Hfile; [|discriminate].
  injection Hopen as -> <- <-.
  apply bind_inr in H2 as (u' & [o3 w3] & Hhdr & H3).
  injection Hhdr as _ <- <-.
  unfold Copy in H3. destruct (os.IsDir file) eqn:Hdir; [discriminate|].
  injection H3 as <- <-. rewrite Write_last.
  eexists _, [_; _]. split; [|split; [done|split; [done|]]].
  - exists file. by repeat split.
  - unfold extends. cbn. by rewrite <- app_assoc.
Qed.

Lemma addFiles_inr files out w out' w' :
  addFiles p files (out, w) = (inr (), (out', w')) →
  ∃ entries evs,
    Forall2 (entry_of p (fs w)) files entries
    ∧ out' = out ++ entries
    ∧ fs w' = fs w
    ∧ extends w w' evs.
Proof.
  revert out w. induction files as [|file files IH]; intros out w.
  - intros [= <- <-]. exists [], []. rewrite app_nil_r.
    repeat split; [constructor|by rewrite app_nil_r].
  - cbn [addFiles]. intros H.
    apply bind_inr in H as ([] & [o1 w1] & Hadd & H).
    apply addFile_inr in Hadd as (e & evs1 & He & -> & Hfs1 & Hext1).
    apply IH in H as (entries & evs2 & Hes & -> & Hfs2 & Hext2).
    exists (e :: entries), (evs1 ++ evs2). repeat split.
    + constructor; [done|]. by rewrite <- Hfs1.
    + by rewrite <- app_assoc.
    + congruence.
    + apply (extends_trans _ _ _ _ _ Hext1 Hext2).
    + apply (extends_trans _ _ _ _ _ Hext1 Hext2).
    + apply (extends_trans _ _ _ _ _ Hext1 Hext2).
Qed.

(** Opening with the flags of [createArchive] leaves an empty file at the
    name: a new one, or the old one without its bytes. *)
Lemma OpenFile_truncates now name perm fs0 fs1 :
  os.OpenFile now name archive_flags perm fs0 = inr fs1 →
  ∃ f, fs1 !! name = Some f ∧ os.Content f = []
       ∧ ∀ other, other ≠ name → fs1 !! other = fs0 !! other.
Proof.
  unfold os.OpenFile.
  change (os.has_flag archive_flags os.O_TRUNC) with true.
  change (os.has_flag archive_flags os.O_CREATE) with true.
  destruct (fs0 !! name) as [f|] eqn:Hf.
  - destruct (os.IsDir f) eqn:Hdir; [discriminate|]. intros [= <-].
    eexists. rewrite lookup_insert_eq. repeat split.
    intros other Hne. by rewrite lookup_insert_ne.
  - destruct (os.parent_ok fs0 name); [discriminate|]. intros [= <-].
    eexists. rewrite lookup_insert_eq. repeat split.
    intros other Hne. by rewrite lookup_insert_ne.
Qed.

(** A successful [createArchive]: the directories are made, the
    destination is opened empty, every file becomes an entry, in order,
    and the encoded entries are what the destination holds in the end. *)
Lemma createArchive_inr files w w' :
  createArchive encode p files w = (inr (), w') →
  ∃ archive fs0 fs1 out evs,
    (archivePath p w).1 = inr archive
    ∧ os.MkdirAll (clock w) (filepath.Dir archive) 493 (fs w) = inr fs0
    ∧ os.OpenFile (clock w) archive archive_flags 420 fs0 = inr fs1
    ∧ Forall2 (entry_of p fs1) files out
    ∧ (∃ f, fs w' !! archive = Some f ∧ os.Content f = encode out)
    ∧ (∀ other, other ≠ archive → fs w' !! other = fs1 !! other)
    ∧ extends w w' evs
    ∧ EvOpenFile archive archive_flags 420 ∈ evs.
Proof.
  unfold createArchive. intros H.
  apply bind_inr in H as (archive & w1 & Hpath & H).
  pose proof (archivePath_state p w) as Hw1. rewrite Hpath in Hw1.
  cbn in Hw1. subst w1.
  apply bind_inr in H as ([] & w2 & Hlog & H).
  injection Hlog as <-.
  apply bind_inr in H as ([] & w3 & Hmk & H).
  apply bind_inr in H as ([] & w4 & Hopen & H).
  unfold MkdirAll, fs_step in Hmk. cbn [fs emit clock] in Hmk.
  destruct (os.MkdirAll _ _ _ _) as [e|fs0] eqn:Hfs0; [discriminate|].
  injection Hmk as <-.
  unfold OpenFile, fs_step in Hopen. cbn [fs emit clock set_fs] in Hopen.
  fold archive_flags in Hopen.
  destruct (os.OpenFile _ _ _ _ _) as [e|fs1] eqn:Hfs1; [discriminate|].
  injection Hopen as <-.
  unfold with_archive in H.
  destruct (addFiles p files _) as [r [out w5]] eqn:Hadd.
  injection H as -> <-.
  apply addFiles_inr in Hadd as (entries & evs & Hes & -> & Hfs5 & Hext).
  cbn in Hes, Hfs5.
  apply OpenFile_truncates in Hfs1 as Htrunc.
  destruct Htrunc as (f & Hf & _ & _).
  exists archive, fs0, fs1, entries.
  eexists (_ :: _ :: _ :: evs ++ [EvClose archive]).
  split; [by rewrite Hpath|]. split; [done|]. split; [done|].
  split; [done|].
  unfold close_archive. cbn [fs emit]. rewrite Hfs5, Hf. cbn.
  split; [|split; [|split]].
  - eexists. by rewrite lookup_insert_eq.
  - intros other Hne. by rewrite lookup_insert_ne.
  - destruct Hext as (Hargs & Hclock & Htrace). unfold extends. cbn.
    rewrite Hargs, Hclock, Htrace. cbn. by rewrite <- !app_assoc.
  - right. right. left.
Qed.

End archive_facts.

(** ** Paths below the root *)

Section below_facts.

#[local] Arguments filepath.Join : simpl nomatch.

Implicit Types root path rest : gostring.

Lemma clean_step_rooted_plain out e :
  "/"%char ∉ e →
  Forall (λ x, plain_element x = true) out →
  Forall (λ x, plain_element x = true) (filepath.clean_step true out e).
Proof.
  intros He Hout. unfold filepath.clean_step.
  repeat case_bool_decide; try done.
  - destruct out as [|top out']; [done|].
    case_bool_decide; [done|]. by inversion Hout.
  - constructor; [|done]. by apply plain_element_spec.
Qed.

(** What [Clean] keeps of a rooted path are plain elements. *)
Lemma clean_elems_rooted_plain path :
  Forall (λ x, plain_element x = true) (filepath.clean_elems true path).
Proof.
  unfold filepath.clean_elems. apply Forall_rev.
  pose proof (Split_pieces "/"%char path) as H.
  change filepath.Separator with ["/"%char].
  generalize (@nil gostring) (Forall_nil_2 (λ x, plain_element x = true)).
  induction H as [|e es [He _] _ IH]; intros out Hout; [done|].
  cbn [foldl]. apply IH. by apply clean_step_rooted_plain.
Qed.

Lemma Clean_rooted path :
  filepath.IsAbs path = true →
  filepath.Clean path
  = str "/" ++ strings.Join (filepath.clean_elems true path) (str "/").
Proof.
  intros H. unfold filepath.Clean. rewrite H.
  rewrite bool_decide_eq_false_2; [done|]. by intros ->.
Qed.

(** The pieces of a cleaned rooted path other than the root: an empty
    piece before the first separator, then the elements kept. *)
Lemma Split_Clean_rooted path :
  filepath.IsAbs path = true →
  filepath.Clean path ≠ str "/" →
  strings.Split (filepath.Clean path) (str "/")
  = [] :: filepath.clean_elems true path.
Proof.
  intros Habs Hroot. rewrite Clean_rooted in * by done.
  change (str "/" ++ ?x) with ([] ++ "/"%char :: x).
  change (str "/") with ["/"%char]. rewrite Split_app.
  rewrite Split_Join; [done| |].
  - intros E. apply Hroot. by rewrite E.
  - apply plain_elements_no_separator, clean_elems_rooted_plain.
Qed.

Lemma rel_skip_app (bs ts : list gostring) :
  filepath.rel_skip bs (bs ++ ts) = ([], ts).
Proof.
  induction bs as [|b bs IH]; [by destruct ts|].
  cbn. by rewrite bool_decide_eq_true_2.
Qed.

Lemma IsAbs_Clean path :
  filepath.IsAbs path = true → filepath.IsAbs (filepath.Clean path) = true.
Proof.
  intros H. rewrite Clean_rooted by done.
  change (str "/" ++ ?x) with ("/"%char :: x). by rewrite IsAbs_cons.
Qed.

(** The way from the root to a path below it is the rest of the path. *)
Lemma Rel_below root path rest :
  below root path rest → filepath.Rel root path = Some rest.
Proof.
  intros (Habs & _ & Hroot & Hrest & Hclean). unfold filepath.Rel.
  pose proof (IsAbs_Clean root Habs) as Hb.
  assert (filepath.IsAbs (filepath.Clean path) = true) as Ht.
  { rewrite Hclean, IsAbs_app by apply Clean_nonempty. done. }
  rewrite bool_decide_eq_false_2.
  2:{ rewrite Hclean. intros E%(f_equal length).
      rewrite length_app in E. simpl in E. lia. }
  rewrite bool_decide_eq_false_2 by (by intros E; rewrite E in Hb).
  rewrite Hb, Ht. cbn [eqb negb].
  unfold filepath.rel_elems.
  rewrite !(bool_decide_eq_false_2 (_ = [])) by apply Clean_nonempty.
  rewrite (bool_decide_eq_false_2 (filepath.Clean root = _)) by done.
  rewrite bool_decide_eq_false_2.
  2:{ rewrite Hclean. pose proof (Clean_nonempty root) as Hne.
      destruct (filepath.Clean root); [done|]. destruct rest; [done|].
      intros E%(f_equal length). rewrite length_app in E. simpl in E. lia. }
  rewrite Hclean. change filepath.Separator with ["/"%char].
  change (str "/" ++ rest) with ("/"%char :: rest).
  rewrite Split_app, rel_skip_app. cbn.
  by rewrite Join_Split.
Qed.

(** The rest of a path below the root is made of plain elements. *)
Lemma below_plain root path rest :
  below root path rest →
  Forall (λ x, plain_element x = true) (strings.Split rest (str "/")).
Proof.
  intros (Habs & Hpath & Hroot & Hrest & Hclean).
  assert (filepath.Clean path ≠ str "/") as Hnot.
  { rewrite Hclean. pose proof (Clean_nonempty root) as Hne.
    destruct (filepath.Clean root); [done|]. destruct rest; [done|].
    intros E%(f_equal length). rewrite length_app in E. simpl in E. lia. }
  pose proof (Split_Clean_rooted path Hpath Hnot) as Hs.
  rewrite Hclean in Hs. change (str "/" ++ rest) with ("/"%char :: rest) in Hs.
  pose proof (Split_Clean_rooted root Habs Hroot) as Hr.
  change (str "/") with ["/"%char] in *.
  rewrite Split_app, Hr in Hs. injection Hs as Hs.
  pose proof (clean_elems_rooted_plain path) as Hplain.
  rewrite <- Hs in Hplain. by apply Forall_app in Hplain as [_ ?].
Qed.

(** The rest of a path below the root does not escape. *)
Lemma below_inside root path rest :
  below root path rest → escapes rest = false.
Proof.
  intros H. pose proof (below_plain _ _ _ H) as Hplain.
  destruct H as (_ & _ & _ & Hrest & _).
  pose proof (Join_Split "/"%char rest) as Hjoin.
  change (str "/") with ["/"%char] in *.
  unfold escapes, filepath.clean_elems.
  change filepath.Separator with ["/"%char].
  rewrite foldl_clean_step_plain, app_nil_r, rev_involutive by done.
  destruct (strings.Split rest ["/"%char]) as [|e es] eqn:E;
    [by destruct (Split_nonempty rest ["/"%char])|].
  apply Forall_cons in Hplain as [He _].
  apply plain_element_spec in He as (He1 & _ & He3 & He4).
  apply orb_false_iff. split.
  - destruct rest as [|c rest]; [done|]. rewrite IsAbs_cons.
    apply bool_decide_eq_false. intros ->. apply He4.
    destruct e as [|c e]; [done|].
    assert (c = "/"%char) as ->; [|left].
    destruct es; cbn in Hjoin; by injection Hjoin.
  - apply bool_decide_eq_false. cbn. by intros [= ?].
Qed.

End below_facts.

(** ** The run: [Create] *)

Section Create_facts.

Variable run_command : exec.Cmd → os.FS → option Error * os.FS.
Variable encode : tar.Writer → gostring.
Variable p : Packager.

Lemma Create_unfold w :
  Create run_command encode p w =
    (prePackage run_command p ≫= λ _,
     of_result (IncludeFiles (PBuildpack p)) ≫= λ includedFiles,
     cacheDependencies p ≫= λ dependencyFiles,
     createArchive encode p (includedFiles ++ dependencyFiles))
      (emit (packaging_line p) w).
Proof. reflexivity. Qed.

(** A successful run, stage by stage. *)
Lemma Create_inr w w' :
  Create run_command encode p w = (inr (), w') →
  ∃ included deps pairs w2 evs,
    IncludeFiles (PBuildpack p) = inr included
    ∧ Dependencies (PBuildpack p) = inr deps
    ∧ Forall2 (dependency_files p) deps pairs
    ∧ extends w w2 evs
    ∧ createArchive encode p (included ++ flatten pairs) w2 = (inr (), w').
Proof.
  rewrite Create_unfold. intros H.
  apply bind_inr in H as ([] & w1 & Hpre & H).
  apply bind_inr in H as (included & w1' & Hinc & H).
  destruct (IncludeFiles (PBuildpack p)) as [e|inc] eqn:E; [done|].
  injection Hinc as -> <-.
  apply bind_inr in H as (files & w2 & Hdeps & H).
  apply cacheDependencies_inr in Hdeps
    as (deps & pairs & evs2 & Hd & -> & Hpairs & Hext2 & _).
  apply prePackage_extends in Hpre as [evs1 Hext1].
  exists included, deps, pairs, w2, ([packaging_line p] ++ evs1 ++ evs2).
  split; [done|]. split; [done|]. split; [done|]. split; [|done].
  eapply extends_trans; [apply extends_emit|].
  eapply extends_trans; eassumption.
Qed.

Lemma entry_names_of fs1 files out :
  Forall2 (entry_of p fs1) files out → entry_names out = files.
Proof.
  induction 1 as [|path e files out (f & _ & _ & Hhdr & _) _ IH]; [done|].
  cbn. rewrite Hhdr. cbn. by f_equal.
Qed.

(** The archive of a successful run: where it is, and what its entries
    are called. *)
Lemma Create_inr_names w w' included deps :
  Create run_command encode p w = (inr (), w') →
  IncludeFiles (PBuildpack p) = inr included →
  Dependencies (PBuildpack p) = inr deps →
  ∃ archive out pairs,
    (archivePath p w).1 = inr archive
    ∧ (∃ f, fs w' !! archive = Some f ∧ os.Content f = encode out)
    ∧ Forall2 (dependency_files p) deps pairs
    ∧ entry_names out = included ++ flatten pairs.
Proof.
  intros H Hinc Hdeps.
  apply Create_inr in H
    as (inc' & deps' & pairs & w2 & evs & Hinc' & Hdeps' & Hpairs & Hext & H).
  rewrite Hinc in Hinc'. injection Hinc' as <-.
  rewrite Hdeps in Hdeps'. injection Hdeps' as <-.
  apply createArchive_inr in H
    as (archive & fs0 & fs1 & out & evs' & Hpath & _ & _ & Hout & Hf & _).
  exists archive, out, pairs.
  split; [by rewrite <- (archivePath_extends p w w2 evs)|].
  split; [done|]. split; [done|]. by apply entry_names_of in Hout.
Qed.

End Create_facts.

(** ** C3: the entries of the archive *)

(** C3.  When a run succeeds for a buildpack with included files
    [included] and declared dependencies [deps], the destination holds the
    encoding of a tar stream whose entry names are exactly [included]
    followed by the artifact and the metadata path of each dependency, a
    pair per dependency, in the order of declaration. *)
Theorem Create_entries
    (run_command : exec.Cmd → os.FS → option Error * os.FS)
    (encode : tar.Writer → gostring)
    (p : Packager) (w w' : World)
    (included : list gostring) (deps : list Dependency) :
  Create run_command encode p w = (inr (), w') →
  IncludeFiles (PBuildpack p) = inr included →
  Dependencies (PBuildpack p) = inr deps →
  ∃ archive out pairs,
    (archivePath p w).1 = inr archive
    ∧ (∃ f, fs w' !! archive = Some f ∧ os.Content f = encode out)
    ∧ Forall2 (dependency_files p) deps pairs
    ∧ entry_names out = included ++ flatten pairs.
Proof.
  apply Create_inr_names.
Qed.

(** The run of the scenario: two included files and one dependency. *)
Lemma Create_entries_witness :
  ∃ archive out pairs,
    (archivePath (scenario.packager "com.example.buildpack" "1.2.3" true "/bp/cache")
       (scenario.world ["/out"%string] scenario.now)).1 = inr archive
    ∧ (∃ f,
         fs (Create scenario.succeeds scenario.encode
               (scenario.packager "com.example.buildpack" "1.2.3" true "/bp/cache")
               (scenario.world ["/out"%string] scenario.now)).2 !! archive
         = Some f
         ∧ os.Content f = scenario.encode out)
    ∧ Forall2
        (dependency_files
           (scenario.packager "com.example.buildpack" "1.2.3" true "/bp/cache"))
        [scenario.jre] pairs
    ∧ entry_names out = [str "bin/build"; str "buildpack.toml"] ++ flatten pairs.
Proof.
  apply (Create_entries scenario.succeeds scenario.encode
           (scenario.packager "com.example.buildpack" "1.2.3" true "/bp/cache")
           (scenario.world ["/out"%string] scenario.now)
           (Create scenario.succeeds scenario.encode
              (scenario.packager "com.example.buildpack" "1.2.3" true "/bp/cache")
              (scenario.world ["/out"%string] scenario.now)).2
           [str "bin/build"; str "buildpack.toml"] [scenario.jre]).
  - vm_compute. reflexivity.
  - reflexivity.
  - reflexivity.
Defined.

(** ** C5: a failing pre-package command *)

(** C5.  When the declared command ends with an error (a non-zero exit
    status, or a failure to start), the run returns that error right
    after the command: the events of the run are its first line, the line
    of the hook and the command, with no directory made and no file
    opened, and the file system is exactly as the command left it. *)
Theorem Create_hook_failure
    (run_command : exec.Cmd → os.FS → option Error * os.FS)
    (encode : tar.Writer → gostring)
    (p : Packager) (w : World) (pp : gostring) (e : Error) (f : os.FS) :
  PrePackage (PBuildpack p) = (pp, true) →
  run_command (hook_command p pp) (fs w) = (Some e, f) →
  Create run_command encode p w =
    (inl e,
     {| args := args w; clock := clock w; fs := f;
        trace := trace w ++ [packaging_line p; hook_line pp;
                             EvRun (hook_command p pp)] |}).
Proof.
  intros Hpp Hrun. rewrite Create_unfold, bind_unfold.
  rewrite (prePackage_declared _ _ _ pp Hpp). cbn [fs emit].
  rewrite Hrun. cbn. unfold set_fs. cbn. by rewrite <- !app_assoc.
Qed.

(** The hook of the scenario exits with status one: nothing is at the
    destination afterwards. *)
Lemma Create_hook_failure_witness :
  Create scenario.exits_1 scenario.encode
    (scenario.packager "com.example.buildpack" "1.2.3" true "/bp/cache")
    (scenario.world ["/out"%string] scenario.now)
  = (inl (ErrExit 1),
     {| args := args (scenario.world ["/out"%string] scenario.now);
        clock := scenario.now;
        fs := fs (scenario.world ["/out"%string] scenario.now);
        trace := [packaging_line
                    (scenario.packager "com.example.buildpack" "1.2.3" true "/bp/cache");
                  hook_line (str "ci/package.sh --all");
                  EvRun (hook_command
                           (scenario.packager "com.example.buildpack" "1.2.3" true "/bp/cache")
                           (str "ci/package.sh --all"))] |})
  ∧ fs (scenario.world ["/out"%string] scenario.now)
      !! scenario.destination = None.
Proof.
  split; [|reflexivity].
  exact (Create_hook_failure scenario.exits_1 scenario.encode
           (scenario.packager "com.example.buildpack" "1.2.3" true "/bp/cache")
           (scenario.world ["/out"%string] scenario.now)
           (str "ci/package.sh --all") (ErrExit 1)
           (fs (scenario.world ["/out"%string] scenario.now))
           eq_refl eq_refl).
Defined.

(** ** C8: the entries and the destination *)



(** ** C9: the output directory argument is read last *)

(** C9.  With no output directory on the command line, a run whose
    pre-package stage and dependency stage succeed fails with the error
    of the missing argument, and only then: the world it leaves is the one
    these stages produced, in which the declared command has been run and
    the artifact of every declared dependency has been asked for, in
    order. *)
Theorem Create_missing_argument
    (run_command : exec.Cmd → os.FS → option Error * os.FS)
    (encode : tar.Writer → gostring)
    (p : Packager) (w w1 w2 : World)
    (included files : list gostring) :
  args w !! 1 = None →
  prePackage run_command p (emit (packaging_line p) w) = (inr (), w1) →
  IncludeFiles (PBuildpack p) = inr included →
  cacheDependencies p w1 = (inr files, w2) →
  Create run_command encode p w = (inl ErrArguments, w2)
  ∧ (∀ pp, PrePackage (PBuildpack p) = (pp, true) →
           EvRun (hook_command p pp) ∈ trace w2)
  ∧ (∃ deps, Dependencies (PBuildpack p) = inr deps
             ∧ artifacts_of (trace w2) = artifacts_of (trace w) ++ deps).
Proof.
  intros Hargs Hpre Hinc Hcache.
  pose proof Hcache as (deps & pairs & evs2 & Hdeps & _ & _ & Hext2 & Hevs2)
    %cacheDependencies_inr.
  pose proof Hpre as [evs1 Hext1]%prePackage_extends.
  split; [|split].
  - rewrite Create_unfold, bind_unfold, Hpre, bind_unfold, Hinc.
    cbn [of_result ret]. rewrite bind_unfold, Hcache.
    unfold createArchive. rewrite bind_unfold, archivePath_unfold.
    destruct Hext2 as (-> & _), Hext1 as (-> & _). cbn [args emit].
    by rewrite Hargs.
  - intros pp Hpp. rewrite (prePackage_declared _ _ _ pp Hpp) in Hpre.
    injection Hpre as _ <-. destruct Hext2 as (_ & _ & ->). cbn.
    rewrite !elem_of_app. left. right. left.
  - exists deps. split; [done|].
    destruct Hext2 as (_ & _ & ->). rewrite artifacts_of_app, Hevs2.
    f_equal. destruct (PrePackage (PBuildpack p)) as [pp [|]] eqn:Hpp.
    + rewrite (prePackage_declared _ _ _ pp Hpp) in Hpre.
      injection Hpre as _ <-. cbn. by rewrite !artifacts_of_app, !app_nil_r.
    + rewrite (prePackage_absent _ _ _ pp Hpp) in Hpre.
      injection Hpre as <-. cbn. by rewrite !artifacts_of_app, !app_nil_r.
Qed.

(** The scenario started without its argument: the hook runs, the
    dependency is downloaded into the cache, and then the run fails. *)
Lemma Create_missing_argument_witness :
  (Create scenario.succeeds scenario.encode
     (scenario.packager "com.example.buildpack" "1.2.3" true "/bp/cache")
     (scenario.world [] scenario.now)).1 = inl ErrArguments
  ∧ EvRun (hook_command
             (scenario.packager "com.example.buildpack" "1.2.3" true "/bp/cache")
             (str "ci/package.sh --all"))
    ∈ trace (Create scenario.succeeds scenario.encode
               (scenario.packager "com.example.buildpack" "1.2.3" true "/bp/cache")
               (scenario.world [] scenario.now)).2
  ∧ artifacts_of
      (trace (Create scenario.succeeds scenario.encode
                (scenario.packager "com.example.buildpack" "1.2.3" true "/bp/cache")
                (scenario.world [] scenario.now)).2)
    = [scenario.jre]
  ∧ is_Some
      (fs (Create scenario.succeeds scenario.encode
             (scenario.packager "com.example.buildpack" "1.2.3" true "/bp/cache")
             (scenario.world [] scenario.now)).2
       !! str "/bp/cache/jre/jre.tgz").
Proof.
  pose proof
    (Create_missing_argument scenario.succeeds scenario.encode
       (scenario.packager "com.example.buildpack" "1.2.3" true "/bp/cache")
       (scenario.world [] scenario.now)
       (prePackage scenario.succeeds
          (scenario.packager "com.example.buildpack" "1.2.3" true "/bp/cache")
          (emit (packaging_line
                   (scenario.packager "com.example.buildpack" "1.2.3" true "/bp/cache"))
             (scenario.world [] scenario.now))).2
       (Create scenario.succeeds scenario.encode
          (scenario.packager "com.example.buildpack" "1.2.3" true "/bp/cache")
          (scenario.world [] scenario.now)).2
       [str "bin/build"; str "buildpack.toml"]
       [str "cache/jre/jre.tgz"; str "cache/jre/dependency.toml"]
       eq_refl eq_refl eq_refl) as H.
  destruct H as (Hcreate & Hrun & deps & Hdeps & Harts).
  { vm_compute. reflexivity. }
  split; [by rewrite Hcreate|]. split; [by apply Hrun|].
  split; [|by vm_compute; eexists].
  injection Hdeps as <-. exact Harts.
Defined.

(** ** C6: the names of the entries *)

(** C6, as amended.  The archive writer takes every name as it is given.
    When a run succeeds, the included files are names that do not escape,
    and the artifact and the metadata file of every declared dependency
    lie below the root of the buildpack, no entry of the archive has a
    name that is rooted or that leads out of the root. *)
Theorem Create_entries_inside
    (run_command : exec.Cmd → os.FS → option Error * os.FS)
    (encode : tar.Writer → gostring)
    (p : Packager) (w w' : World)
    (included : list gostring) (deps : list Dependency) :
  Create run_command encode p w = (inr (), w') →
  IncludeFiles (PBuildpack p) = inr included →
  Dependencies (PBuildpack p) = inr deps →
  Forall (λ name, escapes name = false) included →
  (∀ dep fs0 fs1 a,
     dep ∈ deps →
     Artifact (DownloadLayer (PCache p) dep) fs0 = (inr a, fs1) →
     ∃ rest, below (Root (PBuildpack p)) a rest) →
  (∀ dep,
     dep ∈ deps →
     ∃ rest,
       below (Root (PBuildpack p))
         (Metadata (DownloadLayer (PCache p) dep)
            (LayerRoot (DownloadLayer (PCache p) dep))) rest) →
  ∃ archive out,
    (archivePath p w).1 = inr archive
    ∧ (∃ f, fs w' !! archive = Some f ∧ os.Content f = encode out)
    ∧ Forall (λ name, escapes name = false) (entry_names out).
Proof.
  intros H Hinc Hdeps Hincluded Hart Hmeta.
  destruct (Create_inr_names _ _ _ _ _ _ _ H Hinc Hdeps)
    as (archive & out & pairs & Hpath & Hf & Hpairs & Hnames).
  exists archive, out. split; [done|]. split; [done|].
  rewrite Hnames. apply Forall_app. split; [done|].
  clear Hnames Hdeps. induction Hpairs as [|dep [a m] deps pairs Hd _ IH];
    [constructor|].
  destruct Hd as [(fs0 & fs1 & a0 & Ha0 & Hrel) Hm]. cbn in Hrel, Hm.
  destruct (Hart dep fs0 fs1 a0 ltac:(left) Ha0) as [rest Hrest].
  destruct (Hmeta dep ltac:(left)) as [rest' Hrest'].
  rewrite (Rel_below _ _ _ Hrest) in Hrel. injection Hrel as <-.
  rewrite (Rel_below _ _ _ Hrest') in Hm. injection Hm as <-.
  cbn. constructor; [by eapply below_inside|].
  constructor; [by eapply below_inside|].
  apply IH.
  - intros d f0 f1 x Hin. apply Hart. by right.
  - intros d Hin. apply Hmeta. by right.
Qed.

(** The scenario, with the cache below the root. *)
Lemma Create_entries_inside_witness :
  ∃ archive out,
    (archivePath (scenario.packager "com.example.buildpack" "1.2.3" true "/bp/cache")
       (scenario.world ["/out"%string] scenario.now)).1 = inr archive
    ∧ (∃ f,
         fs (Create scenario.succeeds scenario.encode
               (scenario.packager "com.example.buildpack" "1.2.3" true "/bp/cache")
               (scenario.world ["/out"%string] scenario.now)).2 !! archive
         = Some f
         ∧ os.Content f = scenario.encode out)
    ∧ Forall (λ name, escapes name = false) (entry_names out).
Proof.
  apply (Create_entries_inside scenario.succeeds scenario.encode
           (scenario.packager "com.example.buildpack" "1.2.3" true "/bp/cache")
           (scenario.world ["/out"%string] scenario.now)
           (Create scenario.succeeds scenario.encode
              (scenario.packager "com.example.buildpack" "1.2.3" true "/bp/cache")
              (scenario.world ["/out"%string] scenario.now)).2
           [str "bin/build"; str "buildpack.toml"] [scenario.jre]).
  - vm_compute. reflexivity.
  - reflexivity.
  - reflexivity.
  - repeat constructor.
  - intros dep fs0 fs1 a _ [= <- _]. exists (str "cache/jre/jre.tgz").
    repeat split; discriminate.
  - intros dep _. exists (str "cache/jre/dependency.toml").
    repeat split; discriminate.
Defined.

(** C6 as stated fails: with the cache beside the root of the buildpack,
    not below it, the run succeeds and the archive has entries whose names
    start with [..]. *)
Lemma Create_entries_inside_counterexample :
  ∃ out f,
    (Create scenario.succeeds scenario.encode
       (scenario.packager "com.example.buildpack" "1.2.3" true "/cache")
       (scenario.world ["/out"%string] scenario.now)).1 = inr ()
    ∧ fs (Create scenario.succeeds scenario.encode
            (scenario.packager "com.example.buildpack" "1.2.3" true "/cache")
            (scenario.world ["/out"%string] scenario.now)).2
        !! scenario.destination = Some f
    ∧ os.Content f = scenario.encode out
    ∧ entry_names out
      = [str "bin/build"; str "buildpack.toml";
         str "../cache/jre/jre.tgz"; str "../cache/jre/dependency.toml"]
    ∧ escapes (str "../cache/jre/jre.tgz") = true.
Proof.
  pose (file := λ name c,
          {| tar.Hdr := {| tar.Name := str name;
                           tar.Size := Z.of_nat (length (str c));
                           tar.Mode := 420; tar.ModTime := scenario.now |};
             tar.Data := str c |}).
  exists [file "bin/build" "#!/bin/sh"; file "buildpack.toml" "[buildpack]";
          file "../cache/jre/jre.tgz" "JRE";
          file "../cache/jre/dependency.toml" "sha"]%string.
  eexists. split; [by vm_compute|]. split; [by vm_compute|].
  split; [by vm_compute|]. split; reflexivity.
Qed.
